(** * Trading journal backend (main.py): authentication, access guard and
    owner-scoped trade handlers.

    The FastAPI application of [main.py] is embedded as follows.
    - Python exceptions are an error type [exn]; a call that may raise
      returns a [result].
    - The SQLAlchemy session handed out by [get_db] is an explicit state
      ([Session]): the two tables as lists of rows in rowid order, the
      objects added or deleted but not yet committed, and the log of the
      statements issued so far.  Handlers run in the state-and-error monad
      [M].
    - The third-party libraries (passlib's bcrypt handler, python-jose's
      signing layer) are parameters of the development; what main.py and
      the library front ends do with them is written out. *)

From Stdlib Require Import ZArith Floats Ascii String.
From stdpp Require Import base option strings list gmap.

Open Scope string_scope.
Open Scope Z_scope.

(** ** Exceptions and results *)

Inductive exn : Type :=
| HTTPException (status_code : Z) (detail : option string)
| IndexError
| JWTError
| ExpiredSignatureError
| JWTClaimsError
| UnknownHashError
| ValueError
| IntegrityError
| OverflowError.

Inductive result (A : Type) : Type :=
| Ok (a : A)
| Raise (e : exn).
Arguments Ok {A} a.
Arguments Raise {A} e.

Definition is_ok {A} (r : result A) : bool :=
  match r with Ok _ => true | Raise _ => false end.

Definition rbind {A B} (r : result A) (k : A → result B) : result B :=
  match r with Ok a => k a | Raise e => Raise e end.

(** [try: body except Exception: handler]. *)
Definition try_except {A} (body : result A) (handler : exn → result A) : result A :=
  match body with Ok a => Ok a | Raise e => handler e end.

(** ** Python values and strings *)

(** The values that occur in a JWT claim set. *)
Inductive pyval : Type :=
| PNone
| PStr (s : string)
| PInt (z : Z)
| PDatetime (seconds : Z).

(** [s.split(sep)] for a one-character separator: every occurrence of the
    separator cuts, so consecutive separators give empty strings and the
    result is never empty. *)
Fixpoint split (sep : ascii) (s : string) : list string :=
  match s with
  | EmptyString => [EmptyString]
  | String c s' =>
      if Ascii.eqb c sep then EmptyString :: split sep s'
      else match split sep s' with
           | w :: ws => String c w :: ws
           | [] => [String c EmptyString]
           end
  end.

(** [l[i]]: raises IndexError out of range. *)
Definition py_index {A} (l : list A) (i : nat) : result A :=
  match l !! i with
  | Some x => Ok x
  | None => Raise IndexError
  end.

Fixpoint has_char (c : ascii) (s : string) : bool :=
  match s with
  | EmptyString => false
  | String c' s' => Ascii.eqb c' c || has_char c s'
  end.

Definition space : ascii := Ascii.ascii_of_nat 32.

Definition NUL : ascii := Ascii.ascii_of_nat 0.

(** ** Tables (section 3 of main.py) *)

Record UserDB : Type := {
  user_id : option Z;
  username : string;
  hashed_password : string
}.

Record TradeDB : Type := {
  trade_id : option Z;
  trade_date : string;
  trade_pair : string;
  trade_direction : string;
  trade_risk : string;
  trade_rr : string;
  trade_pl : float;
  trade_obs : string;
  trade_link : string;
  owner_id : option Z
}.

(** ** Request schemas (section 4 of main.py) *)

Record UserLogin : Type := {
  login_username : string;
  login_password : string
}.

Record TradeSchema : Type := {
  date : string;
  pair_ : string;
  direction : string;
  risk : string;
  rr : string;
  pl : float;
  obs : string;
  link : string
}.

Record Request : Type := {
  headers : gmap string string
}.

(** What a handler returns: a JSON object of strings or the list of rows. *)
Inductive response : Type :=
| JsonDict (d : list (string * string))
| JsonTrades (rows : list TradeDB).

(** ** The database and the session *)

Record Database : Type := {
  users : list UserDB;
  trades : list TradeDB
}.

Inductive table : Type := Users | Trades.

Inductive event : Type :=
| EvQuery (t : table)
| EvAdd (t : table)
| EvDelete (t : table)
| EvCommit.

Inductive pending_op : Type :=
| AddUser (u : UserDB)
| AddTrade (t : TradeDB)
| DelTrade (t : TradeDB).

Record Session : Type := {
  store : Database;
  pending : list pending_op;
  trace : list event
}.

Definition M (A : Type) : Type := Session → result A * Session.

#[global] Instance M_ret : MRet M := λ A a s, (Ok a, s).
#[global] Instance M_bind : MBind M := λ A B k m s,
  match m s with
  | (Ok a, s') => k a s'
  | (Raise e, s') => (Raise e, s')
  end.

Definition raise {A} (e : exn) : M A := λ s, (Raise e, s).

Definition lift {A} (r : result A) : M A := λ s, (r, s).

Definition log (e : event) (s : Session) : Session :=
  {| store := store s; pending := pending s; trace := trace s ++ [e] |}.

(** A Python int bound as a parameter of a statement must fit SQLite's
    64-bit signed INTEGER; the driver raises OverflowError otherwise and
    the statement does not run. *)
Definition sqlite_integer (i : Z) : bool :=
  (- 2 ^ 63 <=? i) && (i <? 2 ^ 63).

Definition bind_integer (i : Z) : result Z :=
  if sqlite_integer i then Ok i else Raise OverflowError.

(** INTEGER PRIMARY KEY in SQLite: a new row gets the largest id in the
    table plus one, 1 in an empty table. *)
Definition next_id (ids : list Z) : Z := foldr Z.max 0 ids + 1.

Definition user_ids (db : Database) : list Z := omap user_id (users db).
Definition trade_ids (db : Database) : list Z := omap trade_id (trades db).

(** [db.query(UserDB).filter(...).first()] *)
Definition query_users_first (P : UserDB → Prop) `{∀ u, Decision (P u)}
  : M (option UserDB) :=
  λ s, (Ok (head (filter P (users (store s)))), log (EvQuery Users) s).

(** [db.query(TradeDB).filter(...).all()] *)
Definition query_trades_all (P : TradeDB → Prop) `{∀ t, Decision (P t)}
  : M (list TradeDB) :=
  λ s, (Ok (filter P (trades (store s))), log (EvQuery Trades) s).

(** [db.query(TradeDB).filter(...).first()] *)
Definition query_trades_first (P : TradeDB → Prop) `{∀ t, Decision (P t)}
  : M (option TradeDB) :=
  λ s, (Ok (head (filter P (trades (store s)))), log (EvQuery Trades) s).

Definition add_pending (op : pending_op) (e : event) : M unit :=
  λ s, (Ok tt, {| store := store s; pending := pending s ++ [op];
                  trace := trace s ++ [e] |}).

(** [db.add(obj)] *)
Definition db_add_user (u : UserDB) : M unit := add_pending (AddUser u) (EvAdd Users).
Definition db_add_trade (t : TradeDB) : M unit := add_pending (AddTrade t) (EvAdd Trades).

(** [db.delete(obj)] *)
Definition db_delete_trade (t : TradeDB) : M unit :=
  add_pending (DelTrade t) (EvDelete Trades).

(** The primary key given to a flushed object: the one it carries, which
    must be free, or the next one of the table. *)
Definition assign_id (given : option Z) (ids : list Z) : result Z :=
  match given with
  | None => Ok (next_id ids)
  | Some i => if decide (i ∈ ids) then Raise IntegrityError else Ok i
  end.

(** One pending statement applied to the tables.  The users table has
    [unique=True] on username. *)
Definition apply_op (op : pending_op) (db : Database) : result Database :=
  match op with
  | AddUser u =>
      if decide (username u ∈ username <$> users db) then Raise IntegrityError
      else
        rbind (assign_id (user_id u) (user_ids db)) (λ i,
          Ok {| users := users db ++
                  [{| user_id := Some i; username := username u;
                      hashed_password := hashed_password u |}];
                trades := trades db |})
  | AddTrade t =>
      rbind (assign_id (trade_id t) (trade_ids db)) (λ i,
        Ok {| users := users db;
              trades := trades db ++
                [{| trade_id := Some i; trade_date := trade_date t;
                    trade_pair := trade_pair t;
                    trade_direction := trade_direction t;
                    trade_risk := trade_risk t; trade_rr := trade_rr t;
                    trade_pl := trade_pl t; trade_obs := trade_obs t;
                    trade_link := trade_link t; owner_id := owner_id t |}] |})
  | DelTrade t =>
      Ok {| users := users db;
            trades := filter (λ r, trade_id r ≠ trade_id t) (trades db) |}
  end.

Fixpoint apply_ops (ops : list pending_op) (db : Database) : result Database :=
  match ops with
  | [] => Ok db
  | op :: ops' => rbind (apply_op op db) (apply_ops ops')
  end.

(** [db.commit()]: the pending statements run in one transaction; when one
    fails the tables are left as they were. *)
Definition db_commit : M unit :=
  λ s, match apply_ops (pending s) (store s) with
       | Ok db' => (Ok tt, {| store := db'; pending := [];
                              trace := trace s ++ [EvCommit] |})
       | Raise e => (Raise e, {| store := store s; pending := [];
                                 trace := trace s ++ [EvCommit] |})
       end.

(** [get_db]: a fresh session on the database for one request, closed when
    the request ends; what was not committed is dropped.  The result is
    the handler's outcome, the database afterwards and the statements
    issued. *)
Definition get_db {A} (handler : M A) (db : Database)
  : result A * Database * list event :=
  let '(r, s) := handler {| store := db; pending := []; trace := [] |} in
  (r, store s, trace s).

(** ** The libraries main.py calls *)

(** passlib's bcrypt handler: [bcrypt_hash salt secret] is the digest made
    with the salt the handler drew, of a secret that passed the size
    check (it raises on a secret it refuses), [bcrypt_verify secret hash]
    the check of a string already identified as a bcrypt hash (it may
    still raise, on a hash it cannot parse or a secret it refuses). *)
Class Passlib : Type := {
  bcrypt_hash : string → string → result string;
  bcrypt_verify : string → string → result bool
}.

(** python-jose's signing layer (jws): [jws_sign claims key alg] is the
    compact serialization, [jws_verify token key algs] gives back the
    claims of a token whose signature verifies and raises otherwise. *)
Class Jose : Type := {
  jws_sign : gmap string pyval → string → string → string;
  jws_verify : string → string → list string → result (gmap string pyval)
}.

(** The prefixes by which passlib identifies a bcrypt hash. *)
Definition bcrypt_ident_values : list string :=
  ["$2$"; "$2a$"; "$2x$"; "$2y$"; "$2b$"].

Definition bcrypt_identify (hash : string) : bool :=
  existsb (λ ident, String.prefix ident hash) bcrypt_ident_values.

(** [CryptContext(schemes=["bcrypt"]).verify]: the hash is identified
    against the configured schemes first; a string that is no hash of any
    of them raises. *)
Definition pwd_context_verify `{Passlib} (secret hash : string) : result bool :=
  if bcrypt_identify hash then bcrypt_verify secret hash
  else Raise UnknownHashError.

(** The longest secret passlib takes. *)
Definition MAX_PASSWORD_SIZE : nat := 4096.

(** [CryptContext(schemes=["bcrypt"]).hash]: a secret longer than
    [MAX_PASSWORD_SIZE] raises (PasswordSizeError), one with a NUL
    character raises (the bcrypt handler refuses it); both are
    ValueErrors.  Otherwise the handler makes the digest. *)
Definition pwd_context_hash `{Passlib} (salt secret : string) : result string :=
  if (MAX_PASSWORD_SIZE <? String.length secret)%nat then Raise ValueError
  else if has_char NUL secret then Raise ValueError
  else bcrypt_hash salt secret.

(** [jwt.encode]: a datetime in a time claim becomes its number of
    seconds, then the claims are signed. *)
Definition numeric_date (claim : string) (claims : gmap string pyval)
  : gmap string pyval :=
  match claims !! claim with
  | Some (PDatetime z) => <[claim := PInt z]> claims
  | _ => claims
  end.

Definition jwt_encode `{Jose} (claims : gmap string pyval) (key algorithm : string)
  : string :=
  jws_sign (numeric_date "nbf" (numeric_date "iat" (numeric_date "exp" claims)))
           key algorithm.

(** [jwt.decode] at clock [now] (seconds): the signature is verified, then
    the claims main.py relies on are validated: an exp in the past
    raises ExpiredSignatureError, a sub that is not a string is refused. *)
Definition validate_exp (claims : gmap string pyval) (now : Z) : result unit :=
  match claims !! "exp" with
  | None => Ok tt
  | Some (PInt exp) => if exp <? now then Raise ExpiredSignatureError else Ok tt
  | Some _ => Raise JWTClaimsError
  end.

Definition validate_sub (claims : gmap string pyval) : result unit :=
  match claims !! "sub" with
  | None => Ok tt
  | Some (PStr _) => Ok tt
  | Some _ => Raise JWTClaimsError
  end.

Definition jwt_decode `{Jose} (token key : string) (algorithms : list string)
  (now : Z) : result (gmap string pyval) :=
  rbind (try_except (jws_verify token key algorithms) (λ _, Raise JWTError))
    (λ claims,
       rbind (validate_exp claims now) (λ _,
       rbind (validate_sub claims) (λ _, Ok claims))).

(** ** Security settings and helpers (sections 1 and 5 of main.py) *)

Definition SECRET_KEY : string := "cheia-ta-secreta-foarte-lunga-si-sigura".
Definition ALGORITHM : string := "HS256".
Definition ACCESS_TOKEN_EXPIRE_MINUTES : Z := 60.

(** [timedelta(minutes=m)] in seconds. *)
Definition timedelta_minutes (m : Z) : Z := 60 * m.

Definition verify_password `{Passlib} (plain_password hashed_password : string)
  : result bool :=
  pwd_context_verify plain_password hashed_password.

Definition get_password_hash `{Passlib} (salt password : string) : result string :=
  pwd_context_hash salt password.

(** [now] is [datetime.utcnow()], in seconds. *)
Definition create_access_token `{Jose} (data : gmap string pyval) (now : Z) : string :=
  let to_encode := data in
  let expire := now + timedelta_minutes ACCESS_TOKEN_EXPIRE_MINUTES in
  let to_encode := <["exp" := PDatetime expire]> to_encode in
  let encoded_jwt := jwt_encode to_encode SECRET_KEY ALGORITHM in
  encoded_jwt.

(** ** The guard *)

(** The [try] block of [get_current_user]: everything raised inside,
    the 401 for a missing subject included, leaves as the 401
    "Token invalid". *)
Definition token_username `{Jose} (token : string) (now : Z) : result pyval :=
  try_except
    (rbind (py_index (split space token) 1) (λ token,
     rbind (jwt_decode token SECRET_KEY [ALGORITHM] now) (λ payload,
       match payload !! "sub" with
       | None | Some PNone => Raise (HTTPException 401 None)
       | Some username => Ok username
       end)))
    (λ _, Raise (HTTPException 401 (Some "Token invalid"))).

(** [UserDB.username == username] as a filter. *)
Definition username_is (v : pyval) (u : UserDB) : Prop := PStr (username u) = v.

#[global] Instance pyval_eq_dec : EqDecision pyval.
Proof. solve_decision. Defined.

#[global] Instance username_is_dec v u : Decision (username_is v u).
Proof. unfold username_is. apply _. Defined.

Definition get_current_user `{Jose} (request : Request) (now : Z) : M UserDB :=
  match headers request !! "Authorization" with
  | None | Some "" => raise (HTTPException 401 (Some "Not authenticated"))
  | Some token =>
      username ← lift (token_username token now);
      user ← query_users_first (username_is username);
      match user with
      | None => raise (HTTPException 401 None)
      | Some user => mret user
      end
  end.

(** ** The routes *)

Definition register `{Passlib} (user : UserLogin) (salt : string) : M response :=
  existing_user ← query_users_first (λ u, username u = login_username user);
  match existing_user with
  | Some _ => raise (HTTPException 400 (Some "User already exists"))
  | None =>
      hashed_pw ← lift (get_password_hash salt (login_password user));
      let new_user := {| user_id := None; username := login_username user;
                         hashed_password := hashed_pw |} in
      db_add_user new_user;;
      db_commit;;
      mret (JsonDict [("msg", "User created successfully")])
  end.

Definition login `{Passlib} `{Jose} (user : UserLogin) (now : Z) : M response :=
  db_user ← query_users_first (λ u, username u = login_username user);
  match db_user with
  | None => raise (HTTPException 401 (Some "Incorrect username or password"))
  | Some db_user =>
      verified ← lift (verify_password (login_password user)
                                       (hashed_password db_user));
      if verified : bool then
        let access_token :=
          create_access_token {["sub" := PStr (username db_user)]} now in
        mret (JsonDict [("access_token", access_token); ("token_type", "bearer")])
      else raise (HTTPException 401 (Some "Incorrect username or password"))
  end.

Definition create_trade (trade : TradeSchema) (current_user : UserDB) : M response :=
  let db_trade :=
    {| trade_id := None; trade_date := date trade; trade_pair := pair_ trade;
       trade_direction := direction trade; trade_risk := risk trade;
       trade_rr := rr trade; trade_pl := pl trade; trade_obs := obs trade;
       trade_link := link trade; owner_id := user_id current_user |} in
  db_add_trade db_trade;;
  db_commit;;
  mret (JsonDict [("status", "success")]).

Definition read_trades (current_user : UserDB) : M response :=
  trades ← query_trades_all (λ t, owner_id t = user_id current_user);
  mret (JsonTrades trades).

Definition delete_trade (trade_id_ : Z) (current_user : UserDB) : M response :=
  trade_id_ ← lift (bind_integer trade_id_);
  trade ← query_trades_first
            (λ t, trade_id t = Some trade_id_ ∧ owner_id t = user_id current_user);
  match trade with
  | Some trade => db_delete_trade trade;; db_commit
  | None => mret tt
  end;;
  mret (JsonDict [("status", "deleted")]).

(** The three routes that declare [Depends(get_current_user)]. *)
Inductive protected_route : Type :=
| PostTrade (trade : TradeSchema)
| GetTrades
| DeleteTrade (trade_id_ : Z).

Definition route_handler (r : protected_route) : UserDB → M response :=
  match r with
  | PostTrade trade => create_trade trade
  | GetTrades => read_trades
  | DeleteTrade i => delete_trade i
  end.

(** A request to a protected route: FastAPI resolves the dependencies
    first and calls the route function with the user the guard returned;
    an exception of the guard ends the request. *)
Definition serve_protected `{Jose} (r : protected_route) (request : Request)
  (now : Z) : M response :=
  current_user ← get_current_user request now;
  route_handler r current_user.

(** ** Stand-in libraries and sample data

    A small instance of the two library interfaces, used to run the
    program on concrete requests. *)
Module Demo.

(** A "digest" that keeps the password readable after the bcrypt prefix
    and the salt; like the bcrypt handler, the check refuses a secret
    with a NUL character. *)
Definition passlib : Passlib := {|
  bcrypt_hash salt secret := Ok ("$2b$" +:+ salt +:+ "$" +:+ secret);
  bcrypt_verify secret hash :=
    if has_char NUL secret then Raise ValueError
    else match split (Ascii.ascii_of_nat 36) hash with
         | [_; _; _; digest] => Ok (bool_decide (digest = secret))
         | _ => Raise ValueError
         end
|}.

Definition alice_claims : gmap string pyval :=
  {["sub" := PStr "alice"; "exp" := PInt 3600]}.

(** One token is known to the signing layer: the one for [alice_claims]
    under the server's key. *)
Definition jose : Jose := {|
  jws_sign claims key alg := "eyJ.alice.sig";
  jws_verify token key algs :=
    if bool_decide (token = "eyJ.alice.sig" ∧ key = SECRET_KEY ∧ ALGORITHM ∈ algs)
    then Ok alice_claims else Raise JWTError
|}.

Definition alice : UserDB :=
  {| user_id := Some 1; username := "alice";
     hashed_password := "$2b$salt$pw1" |}.

Definition bob : UserDB :=
  {| user_id := Some 2; username := "bob";
     hashed_password := "$2b$salt$pw2" |}.

Definition eurusd : TradeSchema :=
  {| date := "2024-01-05"; pair_ := "EURUSD"; direction := "long";
     risk := "1%"; rr := "1:2"; pl := 12.5%float; obs := ""; link := "" |}.

(** A trade of alice, as stored. *)
Definition trade1 : TradeDB :=
  {| trade_id := Some 1; trade_date := "2024-01-05"; trade_pair := "EURUSD";
     trade_direction := "long"; trade_risk := "1%"; trade_rr := "1:2";
     trade_pl := 12.5%float; trade_obs := ""; trade_link := "";
     owner_id := Some 1 |}.

Definition db0 : Database := {| users := [alice; bob]; trades := [trade1] |}.

Definition request_with (authorization : string) : Request :=
  {| headers := {["Authorization" := authorization]} |}.

End Demo.

(** ** Invariant of the tables *)

(** Every stored row has its primary key, primary keys are not repeated
    and no username is stored twice. *)
Record wf_db (db : Database) : Prop := {
  wf_user_keys : ∀ u, u ∈ users db → is_Some (user_id u);
  wf_user_ids : NoDup (user_ids db);
  wf_usernames : NoDup (username <$> users db);
  wf_trade_keys : ∀ t, t ∈ trades db → is_Some (trade_id t);
  wf_trade_ids : NoDup (trade_ids db)
}.

(** The row a query by primary key and owner finds. *)
Definition owned_match (i : Z) (u : UserDB) (t : TradeDB) : Prop :=
  trade_id t = Some i ∧ owner_id t = user_id u.

(** A computation keeps the invariant of the tables of its session. *)
Definition keeps_wf {A} (m : M A) : Prop :=
  ∀ s r s', m s = (r, s') → wf_db (store s) → wf_db (store s').

(** The row that [create_trade] leaves in the table: the fields of the
    body, the primary key the table assigned and the owner. *)
Definition stored_trade (i : Z) (trade : TradeSchema) (owner : option Z) : TradeDB :=
  {| trade_id := Some i; trade_date := date trade; trade_pair := pair_ trade;
     trade_direction := direction trade; trade_risk := risk trade;
     trade_rr := rr trade; trade_pl := pl trade; trade_obs := obs trade;
     trade_link := link trade; owner_id := owner |}.

(** The claims [login] hands to [create_access_token] for a username, as
    they are signed at clock [now]. *)
Definition issued_claims (name : string) (now : Z) : gmap string pyval :=
  <["exp" := PInt (now + 60 * 60)]> {["sub" := PStr name]}.

(** The signing layer gives back, under the server's key and algorithm,
    the claims it signed. *)
Definition verifies_own_signature `{Jose} (claims : gmap string pyval) : Prop :=
  jws_verify (jws_sign claims SECRET_KEY ALGORITHM) SECRET_KEY [ALGORITHM]
  = Ok claims.

(** ** The application as a whole *)

(** The routes that use the database.  [read_root] only renders a
    template and is left out.  The salt of a registration is the one the
    bcrypt handler draws while the request runs. *)
Inductive api_call : Type :=
| PostRegister (user : UserLogin) (salt : string)
| PostLogin (user : UserLogin)
| Protected (r : protected_route) (request : Request).

Definition serve `{Passlib} `{Jose} (c : api_call) (now : Z) : M response :=
  match c with
  | PostRegister user salt => register user salt
  | PostLogin user => login user now
  | Protected r request => serve_protected r request now
  end.

(** The route functions are coroutines without an [await]: a request runs
    to its end before the next one starts.  [run_calls] is the database
    after a sequence of requests, each with the clock at its arrival. *)
Fixpoint run_calls `{Passlib} `{Jose} (calls : list (api_call * Z)) (db : Database)
  : Database :=
  match calls with
  | [] => db
  | (c, now) :: rest => run_calls rest (get_db (serve c now) db).1.2
  end.

(** The tables right after [Base.metadata.create_all] on a new file. *)
Definition empty_db : Database := {| users := []; trades := [] |}.

(** The row that [register] leaves in the users table. *)
Definition stored_user (i : Z) (user : UserLogin) (hashed_pw : string) : UserDB :=
  {| user_id := Some i; username := login_username user;
     hashed_password := hashed_pw |}.

(** The response of a successful [login]. *)
Definition token_response `{Jose} (name : string) (now : Z) : response :=
  JsonDict [("access_token", create_access_token {["sub" := PStr name]} now);
            ("token_type", "bearer")].

(** The request that carries a token the way the front end sends it. *)
Definition bearer_request (token : string) : Request :=
  {| headers := {["Authorization" := "Bearer " +:+ token]} |}.

(** * Properties *)

(** ** Lists, strings and queries *)

Lemma head_filter_None {A} (P : A → Prop) `{∀ x, Decision (P x)} (l : list A) :
  head (filter P l) = None ↔ ∀ x, x ∈ l → ¬ P x.
Proof.
  rewrite head_None. split.
  - intros Hnil x Hx HP.
    assert (x ∈ filter P l) as Hin by (apply list_elem_of_filter; done).
    rewrite Hnil in Hin. by apply not_elem_of_nil in Hin.
  - intros Hall. destruct (filter P l) as [|y l'] eqn:E; [done|].
    assert (y ∈ filter P l) as Hin by (rewrite E; left).
    apply list_elem_of_filter in Hin as [HP Hy]. by destruct (Hall y Hy).
Qed.

Lemma head_filter_Some {A} (P : A → Prop) `{∀ x, Decision (P x)} (l : list A) x :
  head (filter P l) = Some x → x ∈ l ∧ P x.
Proof.
  intros Hh. apply head_Some_elem_of in Hh.
  apply list_elem_of_filter in Hh. tauto.
Qed.

Lemma head_filter_is_Some {A} (P : A → Prop) `{∀ x, Decision (P x)} (l : list A) x :
  x ∈ l → P x → is_Some (head (filter P l)).
Proof.
  intros Hx HP. destruct (head (filter P l)) eqn:E; [eauto|].
  pose proof (proj1 (head_filter_None P l) E x Hx) as Hn. by destruct Hn.
Qed.

Lemma split_not_nil sep s : split sep s ≠ [].
Proof.
  destruct s as [|c s]; simpl; [done|].
  destruct (Ascii.eqb c sep); [done|]. by destruct (split sep s).
Qed.

(** A string without the separator is a single part. *)
Lemma split_no_sep sep s : has_char sep s = false → split sep s = [s].
Proof.
  induction s as [|c s IH]; simpl; [done|].
  intros Hc. apply orb_false_iff in Hc as [Hc Hs].
  rewrite Hc, (IH Hs). done.
Qed.

(** The first separator ends the first part. *)
Lemma split_app_sep sep s t :
  has_char sep s = false →
  split sep (s +:+ String sep t) = s :: split sep t.
Proof.
  induction s as [|c s IH]; simpl.
  - intros _. by rewrite Ascii.eqb_refl.
  - intros Hc. apply orb_false_iff in Hc as [Hc Hs].
    rewrite Hc. fold (s +:+ String sep t). by rewrite (IH Hs).
Qed.

(** Fewer than two parts means no separator. *)
Lemma split_lookup_1_None sep s :
  split sep s !! 1%nat = None ↔ has_char sep s = false.
Proof.
  split.
  - induction s as [|c s IH]; simpl; [done|].
    destruct (Ascii.eqb c sep) eqn:Hc; simpl.
    + intros Hl. pose proof (split_not_nil sep s).
      by destruct (split sep s).
    + destruct (split sep s) as [|w ws] eqn:Hs; [by destruct (split_not_nil sep s)|].
      simpl in *. exact IH.
  - intros Hs. by rewrite (split_no_sep _ _ Hs).
Qed.

(** ** The storage layer *)

Lemma next_id_above ids i : i ∈ ids → i < next_id ids.
Proof.
  unfold next_id. induction ids as [|j ids IH]; simpl.
  - intros Hi. by apply not_elem_of_nil in Hi.
  - intros Hi. apply elem_of_cons in Hi as [->|Hi]; [lia|].
    specialize (IH Hi). lia.
Qed.

Lemma next_id_fresh ids : next_id ids ∉ ids.
Proof. intros Hin. apply next_id_above in Hin. lia. Qed.

Lemma assign_id_fresh given ids i : assign_id given ids = Ok i → i ∉ ids.
Proof.
  unfold assign_id. destruct given as [j|].
  - case_decide; [done|]. by intros [= <-].
  - intros [= <-]. apply next_id_fresh.
Qed.

Lemma NoDup_omap_filter {A B} (f : A → option B) (P : A → Prop)
  `{∀ x, Decision (P x)} (l : list A) :
  NoDup (omap f l) → NoDup (omap f (filter P l)).
Proof.
  induction l as [|a l IH]; simpl; [done|].
  rewrite filter_cons. intros Hnd.
  assert (NoDup (omap f l)) as Hl
    by (destruct (f a); [by apply NoDup_cons in Hnd as [_ ?]|done]).
  destruct (decide (P a)); [|by apply IH].
  simpl. destruct (f a) as [b|] eqn:Hfa; [|by apply IH].
  apply NoDup_cons in Hnd as [Hb _]. apply NoDup_cons. split; [|by apply IH].
  intros Hin. apply Hb. apply list_elem_of_omap in Hin as (x & Hx & Hfx).
  apply list_elem_of_omap. exists x. split; [|done].
  apply list_elem_of_filter in Hx. tauto.
Qed.

Lemma NoDup_snoc_fresh {A} (l : list A) x : NoDup l → x ∉ l → NoDup (l ++ [x]).
Proof.
  intros Hl Hx. apply NoDup_app. split_and!; [done| |apply NoDup_singleton].
  intros y Hy Hy'. apply list_elem_of_singleton in Hy'. by subst.
Qed.

(** A committed statement keeps the invariant. *)
Lemma apply_op_wf op db db' : wf_db db → apply_op op db = Ok db' → wf_db db'.
Proof.
  intros [Huk Hui Hun Htk Hti]. destruct op as [u|t|t]; simpl.
  - case_decide as Hname; [done|].
    destruct (assign_id (user_id u) (user_ids db)) as [i|e] eqn:Hid; [|done].
    simpl. intros [= <-]. apply assign_id_fresh in Hid.
    split; simpl; try done.
    + intros v Hv. apply elem_of_app in Hv as [Hv|Hv]; [by apply Huk|].
      apply list_elem_of_singleton in Hv. subst v. simpl. eauto.
    + unfold user_ids. simpl. rewrite omap_app. simpl.
      by apply NoDup_snoc_fresh.
    + rewrite fmap_app. simpl. by apply NoDup_snoc_fresh.
  - destruct (assign_id (trade_id t) (trade_ids db)) as [i|e] eqn:Hid; [|done].
    simpl. intros [= <-]. apply assign_id_fresh in Hid.
    split; simpl; try done.
    + intros v Hv. apply elem_of_app in Hv as [Hv|Hv]; [by apply Htk|].
      apply list_elem_of_singleton in Hv. subst v. simpl. eauto.
    + unfold trade_ids. simpl. rewrite omap_app. simpl.
      by apply NoDup_snoc_fresh.
  - intros [= <-]. split; simpl; try done.
    + intros v Hv. apply list_elem_of_filter in Hv as [_ Hv]. by apply Htk.
    + unfold trade_ids. simpl. by apply NoDup_omap_filter.
Qed.

Lemma apply_ops_wf ops db db' : wf_db db → apply_ops ops db = Ok db' → wf_db db'.
Proof.
  revert db. induction ops as [|op ops IH]; simpl; intros db Hwf.
  - by intros [= <-].
  - destruct (apply_op op db) as [db1|e] eqn:Hop; simpl; [|done].
    apply IH. by eapply apply_op_wf.
Qed.


Lemma keeps_wf_ret {A} (a : A) : keeps_wf (mret a).
Proof. by intros s r s' [= _ <-]. Qed.

Lemma keeps_wf_raise {A} e : keeps_wf (@raise A e).
Proof. by intros s r s' [= _ <-]. Qed.

Lemma keeps_wf_lift {A} (x : result A) : keeps_wf (lift x).
Proof. by intros s r s' [= _ <-]. Qed.

Lemma keeps_wf_bind {A B} (m : M A) (k : A → M B) :
  keeps_wf m → (∀ a, keeps_wf (k a)) → keeps_wf (m ≫= k).
Proof.
  intros Hm Hk s r s'. unfold mbind, M_bind.
  destruct (m s) as [[a|e] s1] eqn:Hms.
  - intros Hks Hwf. eapply Hk; [done|]. by eapply Hm.
  - intros [= _ <-] Hwf. by eapply Hm.
Qed.

Lemma keeps_wf_query_users_first P `{∀ u, Decision (P u)} :
  keeps_wf (query_users_first P).
Proof. by intros s r s' [= _ <-]. Qed.

Lemma keeps_wf_query_trades_first P `{∀ t, Decision (P t)} :
  keeps_wf (query_trades_first P).
Proof. by intros s r s' [= _ <-]. Qed.

Lemma keeps_wf_query_trades_all P `{∀ t, Decision (P t)} :
  keeps_wf (query_trades_all P).
Proof. by intros s r s' [= _ <-]. Qed.

Lemma keeps_wf_add_pending op e : keeps_wf (add_pending op e).
Proof. by intros s r s' [= _ <-]. Qed.

Lemma keeps_wf_commit : keeps_wf db_commit.
Proof.
  intros s r s'. unfold db_commit.
  destruct (apply_ops (pending s) (store s)) as [db'|e] eqn:Hops.
  - intros [= _ <-] Hwf. simpl. by eapply apply_ops_wf.
  - by intros [= _ <-].
Qed.

Create HintDb wf.

#[local] Hint Resolve keeps_wf_ret keeps_wf_raise keeps_wf_lift
  keeps_wf_query_users_first keeps_wf_query_trades_first
  keeps_wf_query_trades_all keeps_wf_add_pending keeps_wf_commit : wf.

Ltac keeps_wf_step :=
  first [ apply keeps_wf_bind; [|intros ?]
        | progress eauto with wf
        | match goal with |- keeps_wf (match ?x with _ => _ end) => destruct x end
        | match goal with |- keeps_wf (if ?x then _ else _) => destruct x end ].

Lemma keeps_wf_get_current_user `{Jose} request now :
  keeps_wf (get_current_user request now).
Proof.
  unfold get_current_user.
  destruct (headers request !! "Authorization") as [[|c token]|];
    repeat keeps_wf_step.
Qed.

Lemma keeps_wf_register `{Passlib} user salt : keeps_wf (register user salt).
Proof. unfold register, db_add_user. repeat keeps_wf_step. Qed.

Lemma keeps_wf_login `{Passlib} `{Jose} user now : keeps_wf (login user now).
Proof. unfold login. repeat keeps_wf_step. Qed.

Lemma keeps_wf_route r current_user : keeps_wf (route_handler r current_user).
Proof.
  destruct r; simpl;
    unfold create_trade, read_trades, delete_trade, db_add_trade, db_delete_trade;
    repeat keeps_wf_step.
Qed.

(** Every request leaves the tables well formed. *)
Lemma get_db_wf {A} (m : M A) db :
  keeps_wf m → wf_db db → wf_db (get_db m db).1.2.
Proof.
  intros Hm Hwf. unfold get_db.
  destruct (m _) as [r s] eqn:Hms. simpl.
  by apply (Hm _ _ _ Hms).
Qed.

(** Rows with different primary keys are different rows, and in well
    formed tables a primary key names one row. *)
Lemma NoDup_omap_inj {A B} (f : A → option B) (l : list A) x y b :
  NoDup (omap f l) → x ∈ l → y ∈ l → f x = Some b → f y = Some b → x = y.
Proof.
  induction l as [|a l IH]; simpl; intros Hnd Hx Hy Hfx Hfy.
  - by apply not_elem_of_nil in Hx.
  - assert (∀ z, z ∈ l → f z = Some b → f a = Some b → False) as Hclash.
    { intros z Hz Hfz Hfa. rewrite Hfa in Hnd. apply NoDup_cons in Hnd as [Hb _].
      apply Hb, list_elem_of_omap. eauto. }
    assert (NoDup (omap f l)) as Hl
      by (destruct (f a); [by apply NoDup_cons in Hnd as [_ ?]|done]).
    apply elem_of_cons in Hx as [->|Hx], Hy as [->|Hy]; try done.
    + by destruct (Hclash y Hy Hfy Hfx).
    + by destruct (Hclash x Hx Hfx Hfy).
    + by apply IH.
Qed.

Lemma distinct_users_distinct_ids db A B :
  wf_db db → A ∈ users db → B ∈ users db → A ≠ B → user_id A ≠ user_id B.
Proof.
  intros Hwf HA HB Hne Heq. apply Hne.
  destruct (wf_user_keys _ Hwf A HA) as [i Hi].
  eapply (NoDup_omap_inj user_id); [apply (wf_user_ids _ Hwf)|done..|].
  by rewrite <- Heq.
Qed.

(** With unique usernames the query by username finds the row itself. *)
Lemma NoDup_fmap_head_filter {A B} `{EqDecision B} (f : A → B) (l : list A) x :
  NoDup (f <$> l) → x ∈ l → head (filter (λ y, f y = f x) l) = Some x.
Proof.
  induction l as [|a l IH]; simpl; intros Hnd Hx.
  - by apply not_elem_of_nil in Hx.
  - rewrite filter_cons. apply NoDup_cons in Hnd as [Ha Hl].
    apply elem_of_cons in Hx as [->|Hx].
    + by rewrite decide_True.
    + rewrite decide_False; [by apply IH|].
      intros Heq. apply Ha. rewrite Heq. by apply list_elem_of_fmap_2.
Qed.

Lemma query_by_username db u name :
  wf_db db → u ∈ users db → username u = name →
  head (filter (λ v, username v = name) (users db)) = Some u.
Proof.
  intros Hwf Hu <-. apply NoDup_fmap_head_filter; [apply (wf_usernames _ Hwf)|done].
Qed.

(** ** What the routes compute *)


Lemma create_trade_run trade current_user db :
  get_db (create_trade trade current_user) db =
  (Ok (JsonDict [("status", "success")]),
   {| users := users db;
      trades := trades db ++
        [stored_trade (next_id (trade_ids db)) trade (user_id current_user)] |},
   [EvAdd Trades; EvCommit]).
Proof. reflexivity. Qed.

Lemma read_trades_run current_user db :
  get_db (read_trades current_user) db =
  (Ok (JsonTrades (filter (λ t, owner_id t = user_id current_user) (trades db))),
   db, [EvQuery Trades]).
Proof. reflexivity. Qed.

Lemma delete_trade_run i current_user db :
  get_db (delete_trade i current_user) db =
  if sqlite_integer i then
    match head (filter (owned_match i current_user) (trades db)) with
    | Some t =>
        (Ok (JsonDict [("status", "deleted")]),
         {| users := users db;
            trades := filter (λ r, trade_id r ≠ Some i) (trades db) |},
         [EvQuery Trades; EvDelete Trades; EvCommit])
    | None => (Ok (JsonDict [("status", "deleted")]), db, [EvQuery Trades])
    end
  else (Raise OverflowError, db, []).
Proof.
  unfold get_db, delete_trade, mbind, M_bind, lift, bind_integer.
  destruct (sqlite_integer i); [|done].
  unfold query_trades_first. simpl.
  change (λ t, trade_id t = Some i ∧ owner_id t = user_id current_user)
    with (owned_match i current_user).
  destruct (head (filter (owned_match i current_user) (trades db))) as [t|] eqn:Hh;
    [|done].
  apply head_filter_Some in Hh as [_ [Hid _]]. simpl. by rewrite Hid.
Qed.

(** ** Ownership of trades *)

(** C2. [create_trade] stores one new row whose owner is the id of the
    user the guard resolved, whatever the body of the request holds: the
    body has no field for the owner, and two different bodies sent by the
    same caller are stored under the same owner. *)
Theorem create_trade_owner_is_caller (db : Database) (u : UserDB)
  (trade trade' : TradeSchema) :
  ∃ row row' : TradeDB,
    get_db (create_trade trade u) db =
      (Ok (JsonDict [("status", "success")]),
       {| users := users db; trades := trades db ++ [row] |},
       [EvAdd Trades; EvCommit]) ∧
    (get_db (create_trade trade' u) db).1.2 =
       {| users := users db; trades := trades db ++ [row'] |} ∧
    row = stored_trade (next_id (trade_ids db)) trade (user_id u) ∧
    owner_id row = user_id u ∧
    owner_id row' = owner_id row.
Proof.
  exists (stored_trade (next_id (trade_ids db)) trade (user_id u)),
         (stored_trade (next_id (trade_ids db)) trade' (user_id u)).
  rewrite !create_trade_run. done.
Qed.

(** An id that does not fit SQLite's INTEGER never reaches the table:
    the OverflowError of the driver leaves [delete_trade], nothing is
    queried or changed. *)
Lemma delete_trade_overflow i current_user db :
  sqlite_integer i = false →
  get_db (delete_trade i current_user) db = (Raise OverflowError, db, []).
Proof. intros Hi. rewrite delete_trade_run. by rewrite Hi. Qed.

(** C1. Ownership isolation in well formed tables, for two different
    users A and B: a trade A creates is absent from B's listing, as is
    every stored trade of A; and B deleting a trade of A deletes nothing,
    with the same response, tables and statements as B deleting an id
    that is not stored.  Ids are those SQLite can hold, 64-bit signed
    integers: an id outside that range is not bound to the query at
    all. *)
Theorem ownership_isolation (db : Database) (A B : UserDB) :
  wf_db db → A ∈ users db → B ∈ users db → A ≠ B →
  (∀ trade : TradeSchema,
     ∃ row db',
       (get_db (create_trade trade A) db).1.2 = db' ∧
       row ∈ trades db' ∧ owner_id row = user_id A ∧
       ∀ rows, (get_db (read_trades B) db').1.1 = Ok (JsonTrades rows) →
               row ∉ rows) ∧
  (∀ t rows, t ∈ trades db → owner_id t = user_id A →
     (get_db (read_trades B) db).1.1 = Ok (JsonTrades rows) → t ∉ rows) ∧
  (∀ t i j, t ∈ trades db → owner_id t = user_id A → trade_id t = Some i →
     j ∉ trade_ids db → sqlite_integer i = true → sqlite_integer j = true →
     get_db (delete_trade i B) db =
       (Ok (JsonDict [("status", "deleted")]), db, [EvQuery Trades]) ∧
     get_db (delete_trade i B) db = get_db (delete_trade j B) db).
Proof.
  intros Hwf HA HB Hne.
  pose proof (distinct_users_distinct_ids db A B Hwf HA HB Hne) as Hids.
  assert (∀ dbx t rows, owner_id t = user_id A →
            (get_db (read_trades B) dbx).1.1 = Ok (JsonTrades rows) → t ∉ rows)
    as Hlist.
  { intros dbx t rows Hown. rewrite read_trades_run. simpl. intros [= <-] Hin.
    apply list_elem_of_filter in Hin as [Hb _]. congruence. }
  split_and!.
  - intros trade.
    exists (stored_trade (next_id (trade_ids db)) trade (user_id A)).
    eexists. rewrite create_trade_run. simpl.
    split_and!; [reflexivity| |reflexivity|].
    + simpl. apply elem_of_app. right. by apply list_elem_of_singleton.
    + intros rows. by apply Hlist.
  - intros t rows _. apply Hlist.
  - intros t i j Ht Hown Hid Hj Hi64 Hj64.
    assert (∀ k, sqlite_integer k = true →
              (∀ r, r ∈ trades db → ¬ owned_match k B r) →
              get_db (delete_trade k B) db =
                (Ok (JsonDict [("status", "deleted")]), db, [EvQuery Trades]))
      as Hnoop.
    { intros k Hk64 Hk. rewrite delete_trade_run, Hk64.
      by rewrite (proj2 (head_filter_None (owned_match k B) (trades db)) Hk). }
    assert (get_db (delete_trade i B) db =
              (Ok (JsonDict [("status", "deleted")]), db, [EvQuery Trades]))
      as Hi.
    { apply Hnoop; [done|]. intros r Hr [Hrid Hrown].
      assert (r = t) as ->.
      { eapply (NoDup_omap_inj trade_id); [apply (wf_trade_ids _ Hwf)|done..]. }
      congruence. }
    split; [done|]. rewrite Hi. symmetry. apply Hnoop; [done|].
    intros r Hr [Hrid _]. apply Hj. apply list_elem_of_omap. eauto.
Qed.

Lemma demo_db0_wf : wf_db Demo.db0.
Proof.
  split.
  - intros u Hu. apply (Forall_forall (λ u, is_Some (user_id u)) (users Demo.db0));
      [|done]. repeat constructor; by eexists.
  - compute_done.
  - compute_done.
  - intros t Ht. apply (Forall_forall (λ t, is_Some (trade_id t)) (trades Demo.db0));
      [|done]. repeat constructor; by eexists.
  - compute_done.
Qed.

Lemma ownership_isolation_witness :
  get_db (delete_trade 1 Demo.bob) Demo.db0 =
    (Ok (JsonDict [("status", "deleted")]), Demo.db0, [EvQuery Trades]) ∧
  get_db (delete_trade 1 Demo.bob) Demo.db0 =
  get_db (delete_trade 7 Demo.bob) Demo.db0.
Proof.
  refine (proj2 (proj2
    (ownership_isolation Demo.db0 Demo.alice Demo.bob demo_db0_wf _ _ _))
    Demo.trade1 1 7 _ _ _ _ _ _).
  - repeat constructor.
  - repeat constructor.
  - discriminate.
  - repeat constructor.
  - reflexivity.
  - reflexivity.
  - compute_done.
  - reflexivity.
  - reflexivity.
Defined.

(** C5 as stated fails: deleting an owned trade and deleting an id that
    is not stored give the same response, although only the first removes
    a row. *)
Lemma delete_trade_response_counterexample :
  trades (get_db (delete_trade 1 Demo.alice) Demo.db0).1.2 = [] ∧
  trades (get_db (delete_trade 7 Demo.alice) Demo.db0).1.2 = [Demo.trade1] ∧
  (get_db (delete_trade 1 Demo.alice) Demo.db0).1.1 =
  (get_db (delete_trade 7 Demo.alice) Demo.db0).1.1.
Proof. split_and!; reflexivity. Qed.

(** C5, amended. For every trade id that fits SQLite's INTEGER (64-bit
    signed) the response of [delete_trade] is the same constant
    ["status": "deleted"], never an error, and does not tell whether a
    row was deleted.  Without a stored trade of that id and owner the
    tables are unchanged; with one, the row of that id is removed and
    nothing else.  An id outside that range is not bound to the query:
    the driver's OverflowError leaves the route and nothing is changed. *)
Theorem delete_trade_response_constant (db : Database) (i : Z) (u : UserDB) :
  (sqlite_integer i = true →
     (get_db (delete_trade i u) db).1.1 = Ok (JsonDict [("status", "deleted")]) ∧
     ((∀ t, t ∈ trades db → ¬ owned_match i u t) →
        (get_db (delete_trade i u) db).1.2 = db) ∧
     (∀ t, t ∈ trades db → owned_match i u t →
        (get_db (delete_trade i u) db).1.2 =
          {| users := users db;
             trades := filter (λ r, trade_id r ≠ Some i) (trades db) |} ∧
        t ∉ trades (get_db (delete_trade i u) db).1.2)) ∧
  (sqlite_integer i = false →
     get_db (delete_trade i u) db = (Raise OverflowError, db, [])).
Proof.
  rewrite delete_trade_run. split; intros ->; [|done]. split_and!.
  - by destruct (head _).
  - intros Hnone.
    by rewrite (proj2 (head_filter_None (owned_match i u) (trades db)) Hnone).
  - intros t Ht Hm.
    destruct (head_filter_is_Some (owned_match i u) (trades db) t Ht Hm) as [t' ->].
    simpl. split; [done|]. intros Hin.
    apply list_elem_of_filter in Hin as [Hid _]. by destruct Hm.
Qed.

(** ** Registration and login *)

(** C8. Registering a username that is already stored fails with the
    400 "User already exists"; the failed attempt issues one query on the
    users table and leaves the database as it was, so the stored users
    and the row of the first registration (id, username, password hash)
    are unchanged. *)
Theorem register_conflict_atomic `{Passlib} (db : Database) (user : UserLogin)
  (salt : string) (u : UserDB) :
  u ∈ users db → username u = login_username user →
  get_db (register user salt) db =
    (Raise (HTTPException 400 (Some "User already exists")), db, [EvQuery Users]) ∧
  users (get_db (register user salt) db).1.2 = users db ∧
  u ∈ users (get_db (register user salt) db).1.2.
Proof.
  intros Hu Hname.
  assert (get_db (register user salt) db =
    (Raise (HTTPException 400 (Some "User already exists")), db, [EvQuery Users]))
    as Hrun.
  { unfold get_db, register, mbind, M_bind, query_users_first. simpl.
    destruct (head_filter_is_Some (λ v, username v = login_username user)
                (users db) u Hu Hname) as [v ->]. done. }
  rewrite Hrun. done.
Qed.

Lemma register_conflict_atomic_witness :
  get_db (@register Demo.passlib
            {| login_username := "alice"; login_password := "other" |} "salt2")
         Demo.db0 =
    (Raise (HTTPException 400 (Some "User already exists")), Demo.db0,
     [EvQuery Users]).
Proof.
  refine (proj1 (@register_conflict_atomic Demo.passlib Demo.db0 _ "salt2"
                   Demo.alice _ _)).
  - repeat constructor.
  - reflexivity.
Defined.




(** ** The guard *)

(** Whatever goes wrong inside the [try] block leaves as the same 401. *)
Lemma token_username_error `{Jose} token now e :
  token_username token now = Raise e →
  e = HTTPException 401 (Some "Token invalid").
Proof.
  unfold token_username, try_except.
  destruct (rbind _ _); [done|]. by intros [= <-].
Qed.

(** Only the second part of the header value is looked at. *)
Lemma token_username_second_part `{Jose} header header' now :
  split space header !! 1%nat = split space header' !! 1%nat →
  token_username header now = token_username header' now.
Proof. intros Heq. unfold token_username, py_index. by rewrite Heq. Qed.

Lemma get_current_user_token_error `{Jose} request now db c header e :
  headers request !! "Authorization" = Some (String c header) →
  token_username (String c header) now = Raise e →
  get_db (get_current_user request now) db = (Raise e, db, []).
Proof.
  intros Hh Htok. unfold get_db, get_current_user. rewrite Hh.
  unfold mbind, M_bind, lift. by rewrite Htok.
Qed.

Lemma get_current_user_lookup `{Jose} request now db c header v :
  headers request !! "Authorization" = Some (String c header) →
  token_username (String c header) now = Ok v →
  get_db (get_current_user request now) db =
    (match head (filter (username_is v) (users db)) with
     | Some user => Ok user
     | None => Raise (HTTPException 401 None)
     end, db, [EvQuery Users]).
Proof.
  intros Hh Htok. unfold get_db, get_current_user. rewrite Hh.
  unfold mbind, M_bind, lift, query_users_first. rewrite Htok. simpl.
  by destruct (head _).
Qed.

(** The guard in the middle of a session: it leaves the tables and the
    pending objects alone, issues at most one query, on the users table,
    and fails only with a 401. *)
Lemma get_current_user_session `{Jose} request now db p tr :
  ∃ r evs,
    get_current_user request now {| store := db; pending := p; trace := tr |} =
      (r, {| store := db; pending := p; trace := tr ++ evs |}) ∧
    (evs = [] ∨ evs = [EvQuery Users]) ∧
    (∀ e, r = Raise e → ∃ detail, e = HTTPException 401 detail).
Proof.
  unfold get_current_user.
  destruct (headers request !! "Authorization") as [[|c header]|].
  - exists (Raise (HTTPException 401 (Some "Not authenticated"))), [].
    rewrite app_nil_r. split_and!; [done|by left|]. intros e [= <-]. eauto.
  - unfold mbind, M_bind, lift, query_users_first.
    destruct (token_username (String c header) now) as [v|e] eqn:Htok.
    + simpl. destruct (head (filter (username_is v) (users db))) as [user|].
      * exists (Ok user), [EvQuery Users]. split_and!; [done|by right|done].
      * exists (Raise (HTTPException 401 None)), [EvQuery Users].
        split_and!; [done|by right|]. intros e [= <-]. eauto.
    + exists (Raise e), []. rewrite app_nil_r.
      split_and!; [done|by left|]. intros e' [= <-].
      apply token_username_error in Htok. eauto.
  - exists (Raise (HTTPException 401 (Some "Not authenticated"))), [].
    rewrite app_nil_r. split_and!; [done|by left|]. intros e [= <-]. eauto.
Qed.

(** C9. When the guard fails, a request to a protected route ends with
    that failure, a 401, before the route function runs: the database is
    unchanged and no statement was issued on the trades table (the only
    statement there can be is the guard's own query on the users
    table). *)
Theorem guard_failure_precedes_repository `{Jose} (r : protected_route)
  (request : Request) (now : Z) (db : Database) (e : exn) :
  (get_db (get_current_user request now) db).1.1 = Raise e →
  ∃ tr,
    get_db (serve_protected r request now) db = (Raise e, db, tr) ∧
    (∀ ev, ev ∈ tr → ev = EvQuery Users) ∧
    (∃ detail, e = HTTPException 401 detail).
Proof.
  unfold get_db, serve_protected, mbind, M_bind.
  destruct (get_current_user_session request now db [] [])
    as (res & evs & -> & Hevs & Herr).
  simpl. intros ->. exists evs. split_and!; [done| |by apply Herr].
  intros ev Hev. destruct Hevs as [-> | ->].
  - by apply not_elem_of_nil in Hev.
  - by apply list_elem_of_singleton in Hev.
Qed.

Lemma guard_failure_precedes_repository_witness :
  ∃ tr,
    get_db (@serve_protected Demo.jose (DeleteTrade 1)
              (Demo.request_with "Bearer forged") 10) Demo.db0 =
      (Raise (HTTPException 401 (Some "Token invalid")), Demo.db0, tr) ∧
    (∀ ev, ev ∈ tr → ev = EvQuery Users) ∧
    (∃ detail, HTTPException 401 (Some "Token invalid") = HTTPException 401 detail).
Proof.
  apply (@guard_failure_precedes_repository Demo.jose (DeleteTrade 1)
           (Demo.request_with "Bearer forged") 10 Demo.db0).
  vm_compute. reflexivity.
Defined.

#[global] Instance PStr_inj : Inj (=) (=) PStr.
Proof. by intros x y [= ->]. Qed.

(** Through the guard: the row POST /api/trades/ stores is owned by the
    user the guard resolved. *)
Lemma post_trade_owner `{Jose} request now db trade u tr :
  get_db (get_current_user request now) db = (Ok u, db, tr) →
  get_db (serve_protected (PostTrade trade) request now) db =
    (Ok (JsonDict [("status", "success")]),
     {| users := users db;
        trades := trades db ++
          [stored_trade (next_id (trade_ids db)) trade (user_id u)] |},
     (tr ++ [EvAdd Trades; EvCommit])%list).
Proof.
  unfold get_db, serve_protected, mbind, M_bind.
  destruct (get_current_user_session request now db [] [])
    as (res & evs & -> & _ & _).
  simpl. intros Heq. injection Heq as -> ->.
  unfold create_trade, db_add_trade, db_commit, add_pending, mbind, M_bind,
    mret, M_ret. simpl. by rewrite <- app_assoc.
Qed.

Lemma query_by_username_value db u :
  wf_db db → u ∈ users db →
  head (filter (username_is (PStr (username u))) (users db)) = Some u.
Proof.
  intros Hwf Hu.
  assert (NoDup ((λ v, PStr (username v)) <$> users db)) as Hnd.
  { rewrite (list_fmap_compose username PStr).
    apply (NoDup_fmap_2 PStr), (wf_usernames _ Hwf). }
  exact (NoDup_fmap_head_filter (λ v, PStr (username v)) (users db) u Hnd Hu).
Qed.

Lemma split_scheme_credential s t :
  has_char space s = false → has_char space t = false →
  split space (s +:+ " " +:+ t) = [s; t].
Proof.
  intros Hs Ht. change (" " +:+ t) with (String space t).
  by rewrite (split_app_sep space s t Hs), (split_no_sep space t Ht).
Qed.

(** C10. The scheme word of the header is never looked at: with any
    word [s] without a space in front of a token [t] that decodes under
    the server's key at [now] to a subject naming a stored user, the
    guard returns that user, after its single query on the users
    table. *)
Theorem guard_ignores_scheme `{Jose} (s t : string) (request : Request)
  (now : Z) (db : Database) (payload : gmap string pyval) (u : UserDB) :
  has_char space s = false →
  has_char space t = false →
  headers request !! "Authorization" = Some (s +:+ " " +:+ t) →
  jwt_decode t SECRET_KEY [ALGORITHM] now = Ok payload →
  payload !! "sub" = Some (PStr (username u)) →
  wf_db db → u ∈ users db →
  get_db (get_current_user request now) db = (Ok u, db, [EvQuery Users]).
Proof.
  intros Hs Ht Hh Hdec Hsub Hwf Hu.
  assert (token_username (s +:+ " " +:+ t) now = Ok (PStr (username u))) as Htok.
  { unfold token_username, py_index.
    rewrite (split_scheme_credential s t Hs Ht). simpl.
    rewrite Hdec. simpl. by rewrite Hsub. }
  destruct (s +:+ " " +:+ t) as [|c header] eqn:Hheader.
  { destruct s; discriminate. }
  rewrite (get_current_user_lookup request now db c header _ Hh Htok).
  by rewrite (query_by_username_value db u Hwf Hu).
Qed.

Lemma guard_ignores_scheme_witness :
  get_db (@get_current_user Demo.jose (Demo.request_with "Basic eyJ.alice.sig") 10)
         Demo.db0 = (Ok Demo.alice, Demo.db0, [EvQuery Users]).
Proof.
  apply (@guard_ignores_scheme Demo.jose "Basic" "eyJ.alice.sig"
           (Demo.request_with "Basic eyJ.alice.sig") 10 Demo.db0
           Demo.alice_claims Demo.alice).
  - reflexivity.
  - reflexivity.
  - vm_compute. reflexivity.
  - vm_compute. reflexivity.
  - vm_compute. reflexivity.
  - exact demo_db0_wf.
  - repeat constructor.
Defined.

Lemma split_parts_no_sep sep s : Forall (λ w, has_char sep w = false) (split sep s).
Proof.
  induction s as [|c s IH]; simpl.
  - by repeat constructor.
  - destruct (Ascii.eqb c sep) eqn:Hc.
    + by constructor.
    + destruct (split sep s) as [|w ws]; simpl.
      * repeat constructor. simpl. by rewrite Hc.
      * apply Forall_cons in IH as [Hw Hws]. constructor; [|done].
        simpl. by rewrite Hc, Hw.
Qed.

Lemma get_current_user_run `{Jose} request now db c header :
  headers request !! "Authorization" = Some (String c header) →
  get_db (get_current_user request now) db =
    match token_username (String c header) now with
    | Ok v =>
        (match head (filter (username_is v) (users db)) with
         | Some user => Ok user
         | None => Raise (HTTPException 401 None)
         end, db, [EvQuery Users])
    | Raise e => (Raise e, db, [])
    end.
Proof.
  intros Hh. destruct (token_username (String c header) now) as [v|e] eqn:Htok.
  - exact (get_current_user_lookup request now db c header v Hh Htok).
  - exact (get_current_user_token_error request now db c header e Hh Htok).
Qed.

(** C6 as stated fails: a header value of three parts is not rejected,
    the guard decodes its second part and returns the user. *)
Lemma guard_three_parts_counterexample :
  split space "Bearer eyJ.alice.sig extra" = ["Bearer"; "eyJ.alice.sig"; "extra"] ∧
  get_db (@get_current_user Demo.jose
            (Demo.request_with "Bearer eyJ.alice.sig extra") 10) Demo.db0 =
    (Ok Demo.alice, Demo.db0, [EvQuery Users]).
Proof. split; vm_compute; reflexivity. Qed.

(** C6, amended. For a header value that is present and not empty: with
    fewer than two space-separated parts the guard fails with the 401
    "Token invalid" and resolves no user, before any query; with two or
    more parts only the second is used, so the request is treated exactly
    as the one whose header is the first two parts alone, whatever
    follows them. *)
Theorem guard_header_shape `{Jose} (request : Request) (now : Z) (db : Database)
  (header : string) :
  headers request !! "Authorization" = Some header → header ≠ "" →
  ((length (split space header) < 2)%nat →
     get_db (get_current_user request now) db =
       (Raise (HTTPException 401 (Some "Token invalid")), db, [])) ∧
  (∀ scheme credential rest request',
     split space header = scheme :: credential :: rest →
     headers request' !! "Authorization" = Some (scheme +:+ " " +:+ credential) →
     get_db (get_current_user request now) db =
     get_db (get_current_user request' now) db).
Proof.
  intros Hh Hne. destruct header as [|c header]; [done|]. split.
  - intros Hlen. apply (get_current_user_token_error request now db c header);
      [done|].
    unfold token_username, py_index.
    rewrite (lookup_ge_None_2 (split space (String c header)) 1) by lia. done.
  - intros scheme credential rest request' Hsplit Hh'.
    pose proof (split_parts_no_sep space (String c header)) as Hparts.
    rewrite Hsplit in Hparts.
    apply Forall_cons in Hparts as [Hs Hparts].
    apply Forall_cons in Hparts as [Hc _].
    destruct (scheme +:+ " " +:+ credential) as [|c' header'] eqn:Hheader'.
    { destruct scheme; discriminate. }
    rewrite (get_current_user_run request now db c header Hh).
    rewrite (get_current_user_run request' now db c' header' Hh').
    rewrite (token_username_second_part (String c header) (String c' header') now);
      [done|].
    rewrite Hsplit, <- Hheader', (split_scheme_credential _ _ Hs Hc). done.
Qed.

Lemma guard_header_shape_witness :
  get_db (@get_current_user Demo.jose (Demo.request_with "Bearer") 10) Demo.db0 =
    (Raise (HTTPException 401 (Some "Token invalid")), Demo.db0, []).
Proof.
  refine (proj1 (@guard_header_shape Demo.jose (Demo.request_with "Bearer") 10
                   Demo.db0 "Bearer" _ _) _).
  - vm_compute. reflexivity.
  - discriminate.
  - vm_compute. lia.
Defined.

(** ** Tokens *)

(** What [create_access_token] signs for a username: the subject and the
    expiry, sixty minutes after the clock, as a number of seconds. *)
Lemma create_access_token_claims `{Jose} name now :
  create_access_token {["sub" := PStr name]} now =
  jws_sign (issued_claims name now) SECRET_KEY ALGORITHM.
Proof.
  unfold create_access_token, jwt_encode, issued_claims.
  assert (numeric_date "exp"
            (<["exp" := PDatetime (now + timedelta_minutes ACCESS_TOKEN_EXPIRE_MINUTES)]>
               ({["sub" := PStr name]} : gmap string pyval)) =
          <["exp" := PInt (now + 60 * 60)]> {["sub" := PStr name]}) as ->.
  { unfold numeric_date. rewrite lookup_insert_eq. by rewrite insert_insert_eq. }
  assert (∀ claim, claim ≠ "exp" → claim ≠ "sub" →
            numeric_date claim
              (<["exp" := PInt (now + 60 * 60)]>
                 ({["sub" := PStr name]} : gmap string pyval)) =
            <["exp" := PInt (now + 60 * 60)]> {["sub" := PStr name]}) as Hother.
  { intros claim Hexp Hsub. unfold numeric_date.
    rewrite lookup_insert_ne by done. by rewrite lookup_singleton_ne. }
  by rewrite !Hother.
Qed.

Lemma issued_claims_lookup name now :
  issued_claims name now !! "exp" = Some (PInt (now + 60 * 60)) ∧
  issued_claims name now !! "sub" = Some (PStr name).
Proof.
  unfold issued_claims. split.
  - by rewrite lookup_insert_eq.
  - rewrite lookup_insert_ne by done. by rewrite lookup_singleton_eq.
Qed.

(** Decoding an issued token: the expiry check decides. *)
Lemma issued_token_decode `{Jose} (u : string) (issued_at t : Z) :
  verifies_own_signature (issued_claims u issued_at) →
  jwt_decode (create_access_token {["sub" := PStr u]} issued_at)
             SECRET_KEY [ALGORITHM] t =
  if issued_at + 60 * 60 <? t then Raise ExpiredSignatureError
  else Ok (issued_claims u issued_at).
Proof.
  intros Hsig. rewrite create_access_token_claims.
  unfold verifies_own_signature in Hsig.
  destruct (issued_claims_lookup u issued_at) as [Hexp Hsub].
  unfold jwt_decode. rewrite Hsig. simpl.
  unfold validate_exp, validate_sub. rewrite Hexp, Hsub.
  by destruct (issued_at + 60 * 60 <? t).
Qed.

(** At the expiry instant itself the token still decodes. *)
Lemma token_decodes_at_expiry `{Jose} (u : string) (issued_at : Z) :
  verifies_own_signature (issued_claims u issued_at) →
  jwt_decode (create_access_token {["sub" := PStr u]} issued_at)
             SECRET_KEY [ALGORITHM] (issued_at + 60 * 60)
  = Ok (issued_claims u issued_at).
Proof.
  intros Hsig. rewrite (issued_token_decode u issued_at _ Hsig).
  by rewrite Z.ltb_irrefl.
Qed.

(** At the guard the expired token is one more 401 "Token invalid". *)
Lemma expired_token_at_guard `{Jose} (u : string) (issued_at t : Z) :
  verifies_own_signature (issued_claims u issued_at) →
  has_char space (create_access_token {["sub" := PStr u]} issued_at) = false →
  issued_at + 60 * 60 < t →
  token_username ("Bearer " +:+ create_access_token {["sub" := PStr u]} issued_at) t
  = Raise (HTTPException 401 (Some "Token invalid")).
Proof.
  intros Hsig Hsp Hgt. unfold token_username, py_index.
  change ("Bearer " +:+ ?x) with ("Bearer" +:+ " " +:+ x).
  rewrite (split_scheme_credential "Bearer" _ eq_refl Hsp). simpl.
  rewrite (issued_token_decode u issued_at t Hsig).
  by rewrite (proj2 (Z.ltb_lt _ _)) by lia.
Qed.

(** At the guard a token not yet expired gives back its subject. *)
Lemma issued_token_at_guard `{Jose} (u : string) (issued_at t : Z) :
  verifies_own_signature (issued_claims u issued_at) →
  has_char space (create_access_token {["sub" := PStr u]} issued_at) = false →
  t ≤ issued_at + 60 * 60 →
  token_username ("Bearer " +:+ create_access_token {["sub" := PStr u]} issued_at) t
  = Ok (PStr u).
Proof.
  intros Hsig Hsp Hle. unfold token_username, py_index.
  change ("Bearer " +:+ ?x) with ("Bearer" +:+ " " +:+ x).
  rewrite (split_scheme_credential "Bearer" _ eq_refl Hsp). simpl.
  rewrite (issued_token_decode u issued_at t Hsig).
  rewrite (proj2 (Z.ltb_ge _ _)) by lia. simpl.
  by rewrite (proj2 (issued_claims_lookup u issued_at)).
Qed.

(** C3 as stated fails: where the program decodes a token, in the [try]
    block of the guard, a token past its expiry is refused with the 401
    "Token invalid" that every other bad token gets; no Expired error
    comes out of the decoder. *)
Lemma expired_token_error_counterexample :
  @create_access_token Demo.jose {["sub" := PStr "alice"]} 0 = "eyJ.alice.sig" ∧
  @token_username Demo.jose "Bearer eyJ.alice.sig" 3601 =
    Raise (HTTPException 401 (Some "Token invalid")) ∧
  @token_username Demo.jose "Bearer eyJ.alice.sig" 3601 ≠
    Raise ExpiredSignatureError.
Proof. split_and!; [reflexivity|vm_compute; reflexivity|vm_compute; discriminate]. Qed.

(** C3, amended. A token issued for [u] at clock second [issued_at]
    carries the expiry [issued_at] plus sixty minutes.  At every clock
    second up to and including the expiry the library decodes it to the
    claims that were signed and the guard's decoder gives back the
    subject [u] unmodified; at every later clock second the library
    raises ExpiredSignatureError, which the guard's decoder turns into
    the 401 "Token invalid" of every bad token.  The clock and the expiry
    are compared in whole seconds; the signing layer is taken to verify
    the claims it signed and the token to have no space. *)
Theorem token_roundtrip_and_expiry `{Jose} (u : string) (issued_at t : Z) :
  verifies_own_signature (issued_claims u issued_at) →
  has_char space (create_access_token {["sub" := PStr u]} issued_at) = false →
  issued_claims u issued_at !! "exp" = Some (PInt (issued_at + 60 * 60)) ∧
  (t ≤ issued_at + 60 * 60 →
     jwt_decode (create_access_token {["sub" := PStr u]} issued_at)
                SECRET_KEY [ALGORITHM] t = Ok (issued_claims u issued_at) ∧
     token_username
       ("Bearer " +:+ create_access_token {["sub" := PStr u]} issued_at) t
     = Ok (PStr u)) ∧
  (issued_at + 60 * 60 < t →
     jwt_decode (create_access_token {["sub" := PStr u]} issued_at)
                SECRET_KEY [ALGORITHM] t = Raise ExpiredSignatureError ∧
     token_username
       ("Bearer " +:+ create_access_token {["sub" := PStr u]} issued_at) t
     = Raise (HTTPException 401 (Some "Token invalid"))).
Proof.
  intros Hsig Hsp. split_and!.
  - apply issued_claims_lookup.
  - intros Hle. split; [|by apply issued_token_at_guard].
    rewrite (issued_token_decode u issued_at t Hsig).
    by rewrite (proj2 (Z.ltb_ge _ _)) by lia.
  - intros Hgt. split; [|by apply expired_token_at_guard].
    rewrite (issued_token_decode u issued_at t Hsig).
    by rewrite (proj2 (Z.ltb_lt _ _)) by lia.
Qed.

Lemma token_roundtrip_and_expiry_witness :
  @token_username Demo.jose
    ("Bearer " +:+ @create_access_token Demo.jose {["sub" := PStr "alice"]} 0)
    3600 = Ok (PStr "alice").
Proof.
  refine (proj2 (proj1 (proj2
    (@token_roundtrip_and_expiry Demo.jose "alice" 0 3600 _ _)) _)).
  - vm_compute. reflexivity.
  - reflexivity.
  - lia.
Defined.

(** ** Passwords *)

(** C4 as stated fails: on a stored string that is no bcrypt hash
    [verify_password] does not return false, the library's
    UnknownHashError leaves it. *)
Lemma verify_password_raises_counterexample :
  @verify_password Demo.passlib "pw1" "pw1" = Raise UnknownHashError ∧
  ¬ ∃ b : bool, @verify_password Demo.passlib "pw1" "pw1" = Ok b.
Proof. split; [reflexivity|]. intros [b Hb]. discriminate Hb. Qed.

(** C4, amended. [verify_password] is the library call and nothing more:
    it returns a boolean exactly when the stored string is identified as
    a bcrypt hash and the handler's check returns that boolean; on a
    string that is not identified it raises UnknownHashError, and an
    exception of the handler's check is passed on. *)
Theorem verify_password_follows_library `{Passlib} (password hash : string) :
  (∀ b : bool,
     verify_password password hash = Ok b ↔
     bcrypt_identify hash = true ∧ bcrypt_verify password hash = Ok b) ∧
  (bcrypt_identify hash = false →
     verify_password password hash = Raise UnknownHashError) ∧
  (∀ e, bcrypt_identify hash = true → bcrypt_verify password hash = Raise e →
     verify_password password hash = Raise e).
Proof.
  unfold verify_password, pwd_context_verify.
  destruct (bcrypt_identify hash); split_and!.
  - intros b. split; [by intros ->|by intros [_ ->]].
  - done.
  - by intros e _ ->.
  - intros b. split; [done|by intros [? _]].
  - done.
  - done.
Qed.

(** * Further properties of the routes *)

(** ** Registration and login, case by case *)

Lemma register_run `{Passlib} user salt db :
  get_db (register user salt) db =
  match head (filter (λ u, username u = login_username user) (users db)) with
  | Some _ =>
      (Raise (HTTPException 400 (Some "User already exists")), db, [EvQuery Users])
  | None =>
      match get_password_hash salt (login_password user) with
      | Ok hashed_pw =>
          (Ok (JsonDict [("msg", "User created successfully")]),
           {| users := users db ++
                [stored_user (next_id (user_ids db)) user hashed_pw];
              trades := trades db |},
           [EvQuery Users; EvAdd Users; EvCommit])
      | Raise e => (Raise e, db, [EvQuery Users])
      end
  end.
Proof.
  unfold get_db, register, mbind, M_bind, query_users_first, lift. simpl.
  destruct (head (filter (λ u, username u = login_username user) (users db)))
    as [v|] eqn:Hq; [done|].
  destruct (get_password_hash salt (login_password user)) as [hashed_pw|e];
    [|done].
  unfold db_add_user, add_pending, db_commit. simpl.
  rewrite decide_False; [done|].
  intros Hin. apply list_elem_of_fmap in Hin as (v & Hv & Hin).
  by apply (proj1 (head_filter_None _ _) Hq v Hin).
Qed.

Lemma login_run `{Passlib} `{Jose} user now db :
  get_db (login user now) db =
  match head (filter (λ u, username u = login_username user) (users db)) with
  | None =>
      (Raise (HTTPException 401 (Some "Incorrect username or password")), db,
       [EvQuery Users])
  | Some db_user =>
      match verify_password (login_password user) (hashed_password db_user) with
      | Ok true => (Ok (token_response (username db_user) now), db, [EvQuery Users])
      | Ok false =>
          (Raise (HTTPException 401 (Some "Incorrect username or password")), db,
           [EvQuery Users])
      | Raise e => (Raise e, db, [EvQuery Users])
      end
  end.
Proof.
  unfold get_db, login, mbind, M_bind, query_users_first, lift. simpl.
  destruct (head (filter (λ u, username u = login_username user) (users db)))
    as [v|]; [|done].
  by destruct (verify_password _ _) as [[|]|e].
Qed.

Lemma get_password_hash_refused `{Passlib} salt password :
  (MAX_PASSWORD_SIZE < String.length password)%nat ∨ has_char NUL password = true →
  get_password_hash salt password = Raise ValueError.
Proof.
  unfold get_password_hash, pwd_context_hash. intros [Hlen|Hnul].
  - by rewrite (proj2 (Nat.ltb_lt _ _) Hlen).
  - rewrite Hnul. by destruct (_ <? _)%nat.
Qed.

(** X1. Registering a username that is not stored: when the hash of the
    password is made, the registration succeeds and one row is added at
    the end of the users table, with the next id, the username and that
    hash; the trades and the stored users are untouched and the unique
    constraint on username is never hit.  When hashing raises, as it
    does on a password longer than 4096 characters or with a NUL
    character, that exception leaves [register] after its one query and
    nothing is stored. *)
Theorem register_fresh_username `{Passlib} (db : Database) (user : UserLogin)
  (salt : string) :
  (∀ v, v ∈ users db → username v ≠ login_username user) →
  (∀ hashed_pw, get_password_hash salt (login_password user) = Ok hashed_pw →
     get_db (register user salt) db =
       (Ok (JsonDict [("msg", "User created successfully")]),
        {| users := users db ++
             [stored_user (next_id (user_ids db)) user hashed_pw];
           trades := trades db |},
        [EvQuery Users; EvAdd Users; EvCommit])) ∧
  (∀ e, get_password_hash salt (login_password user) = Raise e →
     get_db (register user salt) db = (Raise e, db, [EvQuery Users])) ∧
  ((MAX_PASSWORD_SIZE < String.length (login_password user))%nat ∨
   has_char NUL (login_password user) = true →
     get_db (register user salt) db = (Raise ValueError, db, [EvQuery Users])) ∧
  (∀ v, v ∈ users db → user_id v ≠ Some (next_id (user_ids db))).
Proof.
  intros Hfresh. rewrite register_run.
  rewrite (proj2 (head_filter_None _ _) Hfresh). split_and!.
  - by intros hashed_pw ->.
  - by intros e ->.
  - intros Hrefused. by rewrite (get_password_hash_refused salt _ Hrefused).
  - intros v Hv Hid. apply (next_id_fresh (user_ids db)).
    apply list_elem_of_omap. eauto.
Qed.

Lemma register_fresh_username_witness :
  get_db (@register Demo.passlib
            {| login_username := "carol"; login_password := "pw3" |} "s3")
         Demo.db0 =
    (Ok (JsonDict [("msg", "User created successfully")]),
     {| users := [Demo.alice; Demo.bob;
                  {| user_id := Some 3; username := "carol";
                     hashed_password := "$2b$s3$pw3" |}];
        trades := [Demo.trade1] |},
     [EvQuery Users; EvAdd Users; EvCommit]).
Proof.
  refine (proj1 (@register_fresh_username Demo.passlib Demo.db0
      {| login_username := "carol"; login_password := "pw3" |} "s3" _)
    "$2b$s3$pw3" _).
  - intros v Hv.
    apply (Forall_forall (λ v, username v ≠ "carol") (users Demo.db0)); [|done].
    repeat constructor; discriminate.
  - reflexivity.
Defined.

(** X2. A login whose password verifies returns the bearer token made by
    [create_access_token] for the stored username at the current clock,
    after one query, and changes nothing in the database. *)
Theorem login_success `{Passlib} `{Jose} (db : Database) (user : UserLogin)
  (now : Z) (u : UserDB) :
  wf_db db → u ∈ users db → username u = login_username user →
  verify_password (login_password user) (hashed_password u) = Ok true →
  get_db (login user now) db =
    (Ok (JsonDict [("access_token",
                    create_access_token {["sub" := PStr (username u)]} now);
                   ("token_type", "bearer")]), db, [EvQuery Users]).
Proof.
  intros Hwf Hu Hname Hv. rewrite login_run.
  rewrite (query_by_username db u _ Hwf Hu Hname). by rewrite Hv.
Qed.

Lemma login_success_witness :
  get_db (@login Demo.passlib Demo.jose
            {| login_username := "alice"; login_password := "pw1" |} 0) Demo.db0 =
    (Ok (JsonDict [("access_token", "eyJ.alice.sig"); ("token_type", "bearer")]),
     Demo.db0, [EvQuery Users]).
Proof.
  apply (@login_success Demo.passlib Demo.jose Demo.db0
           {| login_username := "alice"; login_password := "pw1" |} 0 Demo.alice
           demo_db0_wf).
  - repeat constructor.
  - reflexivity.
  - reflexivity.
Defined.

(** X3. [login] has no handler around [verify_password]: when the check
    of the stored hash raises, that exception leaves [login] as it is,
    not as the 401 of a failed login; the database is unchanged. *)
Theorem login_passes_on_verify_error `{Passlib} `{Jose} (db : Database)
  (user : UserLogin) (now : Z) (u : UserDB) (e : exn) :
  wf_db db → u ∈ users db → username u = login_username user →
  verify_password (login_password user) (hashed_password u) = Raise e →
  get_db (login user now) db = (Raise e, db, [EvQuery Users]).
Proof.
  intros Hwf Hu Hname Hv. rewrite login_run.
  rewrite (query_by_username db u _ Hwf Hu Hname). by rewrite Hv.
Qed.

Lemma login_passes_on_verify_error_witness :
  get_db (@login Demo.passlib Demo.jose
            {| login_username := "dave"; login_password := "pw" |} 0)
         {| users := [{| user_id := Some 1; username := "dave";
                         hashed_password := "pw" |}];
            trades := [] |} =
    (Raise UnknownHashError,
     {| users := [{| user_id := Some 1; username := "dave";
                     hashed_password := "pw" |}];
        trades := [] |}, [EvQuery Users]).
Proof.
  apply (@login_passes_on_verify_error Demo.passlib Demo.jose _
           {| login_username := "dave"; login_password := "pw" |} 0
           {| user_id := Some 1; username := "dave"; hashed_password := "pw" |}).
  - split; simpl.
    + intros v Hv. apply list_elem_of_singleton in Hv as ->. by eexists.
    + compute_done.
    + compute_done.
    + intros t Ht. by apply not_elem_of_nil in Ht.
    + compute_done.
  - repeat constructor.
  - reflexivity.
  - reflexivity.
Defined.

(** ** The guard, case by case *)

Lemma token_username_Ok `{Jose} header now v :
  token_username header now = Ok v →
  ∃ t payload,
    split space header !! 1%nat = Some t ∧
    jwt_decode t SECRET_KEY [ALGORITHM] now = Ok payload ∧
    payload !! "sub" = Some v ∧ v ≠ PNone.
Proof.
  unfold token_username, try_except, py_index.
  destruct (split space header !! 1%nat) as [t|]; simpl; [|done].
  destruct (jwt_decode t SECRET_KEY [ALGORITHM] now) as [payload|e] eqn:Hdec;
    simpl; [|done].
  destruct (payload !! "sub") as [[| | |]|] eqn:Hsub; simpl; try discriminate;
    intros [= <-]; exists t, payload; by split_and!.
Qed.

Lemma get_current_user_no_header `{Jose} request now db :
  headers request !! "Authorization" = None ∨
  headers request !! "Authorization" = Some "" →
  get_db (get_current_user request now) db =
    (Raise (HTTPException 401 (Some "Not authenticated")), db, []).
Proof.
  intros [Hh|Hh]; unfold get_db, get_current_user; by rewrite Hh.
Qed.

(** X4. Without an Authorization header, or with an empty one, the guard
    fails with the 401 "Not authenticated" before anything else: nothing
    is decoded and no query is issued. *)
Theorem guard_missing_header `{Jose} (request : Request) (now : Z) (db : Database) :
  headers request !! "Authorization" = None ∨
  headers request !! "Authorization" = Some "" →
  get_db (get_current_user request now) db =
    (Raise (HTTPException 401 (Some "Not authenticated")), db, []) ∧
  (∀ r, get_db (serve_protected r request now) db =
          (Raise (HTTPException 401 (Some "Not authenticated")), db, [])).
Proof.
  intros Hh. split; [by apply get_current_user_no_header|].
  intros r. unfold get_db, serve_protected, mbind, M_bind, get_current_user.
  by destruct Hh as [-> | ->].
Qed.

Lemma guard_missing_header_witness :
  get_db (@get_current_user Demo.jose {| headers := ∅ |} 10) Demo.db0 =
    (Raise (HTTPException 401 (Some "Not authenticated")), Demo.db0, []).
Proof.
  refine (proj1 (@guard_missing_header Demo.jose {| headers := ∅ |} 10 Demo.db0 _)).
  left. reflexivity.
Defined.

(** X5. When the second part of the header does not decode (whatever
    [jwt.decode] raises), or decodes to claims without a subject, the
    guard fails with the 401 "Token invalid": the 401 raised for the
    missing subject is caught by the same [except] and gets that detail
    too.  No query is issued. *)
Theorem guard_token_rejected `{Jose} (request : Request) (now : Z) (db : Database)
  (header t : string) :
  headers request !! "Authorization" = Some header →
  split space header !! 1%nat = Some t →
  (∃ e, jwt_decode t SECRET_KEY [ALGORITHM] now = Raise e) ∨
  (∃ payload, jwt_decode t SECRET_KEY [ALGORITHM] now = Ok payload ∧
              payload !! "sub" = None) →
  get_db (get_current_user request now) db =
    (Raise (HTTPException 401 (Some "Token invalid")), db, []).
Proof.
  intros Hh Ht Hbad.
  destruct header as [|c header]; [done|].
  apply (get_current_user_token_error request now db c header); [done|].
  unfold token_username, py_index. rewrite Ht. simpl.
  destruct Hbad as [[e ->]|(payload & -> & Hsub)]; simpl; [done|].
  by rewrite Hsub.
Qed.

Lemma guard_token_rejected_witness :
  get_db (@get_current_user Demo.jose (Demo.request_with "Bearer forged.token") 10)
         Demo.db0 =
    (Raise (HTTPException 401 (Some "Token invalid")), Demo.db0, []).
Proof.
  apply (@guard_token_rejected Demo.jose (Demo.request_with "Bearer forged.token")
           10 Demo.db0 "Bearer forged.token" "forged.token").
  - vm_compute. reflexivity.
  - reflexivity.
  - left. exists JWTError. vm_compute. reflexivity.
Defined.

(** X6. A token that decodes to a subject no stored user has is refused
    after the query on the users table, with the 401 that has no detail;
    the database is unchanged. *)
Theorem guard_unknown_user `{Jose} (request : Request) (now : Z) (db : Database)
  (header t name : string) (payload : gmap string pyval) :
  headers request !! "Authorization" = Some header →
  split space header !! 1%nat = Some t →
  jwt_decode t SECRET_KEY [ALGORITHM] now = Ok payload →
  payload !! "sub" = Some (PStr name) →
  (∀ v, v ∈ users db → username v ≠ name) →
  get_db (get_current_user request now) db =
    (Raise (HTTPException 401 None), db, [EvQuery Users]).
Proof.
  intros Hh Ht Hdec Hsub Hnone.
  destruct header as [|c header]; [done|].
  rewrite (get_current_user_lookup request now db c header (PStr name) Hh).
  - rewrite (proj2 (head_filter_None (username_is (PStr name)) (users db))); [done|].
    intros v Hv [= Hname]. by apply (Hnone v Hv).
  - unfold token_username, py_index. rewrite Ht. simpl. rewrite Hdec. simpl.
    by rewrite Hsub.
Qed.

Lemma guard_unknown_user_witness :
  get_db (@get_current_user Demo.jose (Demo.request_with "Bearer eyJ.alice.sig") 10)
         {| users := [Demo.bob]; trades := [] |} =
    (Raise (HTTPException 401 None), {| users := [Demo.bob]; trades := [] |},
     [EvQuery Users]).
Proof.
  apply (@guard_unknown_user Demo.jose (Demo.request_with "Bearer eyJ.alice.sig")
           10 _ "Bearer eyJ.alice.sig" "eyJ.alice.sig" "alice" Demo.alice_claims).
  - vm_compute. reflexivity.
  - reflexivity.
  - vm_compute. reflexivity.
  - vm_compute. reflexivity.
  - intros v Hv. apply list_elem_of_singleton in Hv as ->. discriminate.
Defined.

(** X7. The guard returns a user only for a token it decoded: when it
    returns [u], the header has a second part, that part decodes under
    the server's key and algorithm at the current clock, its subject is
    the username of [u], and [u] is a row of the users table.  The
    database is unchanged and one query was issued. *)
Theorem guard_sound `{Jose} (request : Request) (now : Z) (db db' : Database)
  (u : UserDB) (tr : list event) :
  get_db (get_current_user request now) db = (Ok u, db', tr) →
  ∃ header t payload,
    headers request !! "Authorization" = Some header ∧
    split space header !! 1%nat = Some t ∧
    jwt_decode t SECRET_KEY [ALGORITHM] now = Ok payload ∧
    payload !! "sub" = Some (PStr (username u)) ∧
    u ∈ users db ∧ db' = db ∧ tr = [EvQuery Users].
Proof.
  destruct (headers request !! "Authorization") as [[|c header]|] eqn:Hh.
  - rewrite get_current_user_no_header by (by right). done.
  - rewrite (get_current_user_run request now db c header Hh).
    destruct (token_username (String c header) now) as [v|e] eqn:Htok; [|done].
    destruct (head (filter (username_is v) (users db))) as [user|] eqn:Hq; [|done].
    intros [= -> <- <-].
    apply head_filter_Some in Hq as [Hu Hv]. unfold username_is in Hv. subst v.
    apply token_username_Ok in Htok as (t & payload & Ht & Hdec & Hsub & _).
    exists (String c header), t, payload. by split_and!.
  - rewrite get_current_user_no_header by (by left). done.
Qed.

Lemma guard_sound_witness :
  ∃ header t payload,
    headers (Demo.request_with "Bearer eyJ.alice.sig") !! "Authorization"
      = Some header ∧
    split space header !! 1%nat = Some t ∧
    @jwt_decode Demo.jose t SECRET_KEY [ALGORITHM] 10 = Ok payload ∧
    payload !! "sub" = Some (PStr (username Demo.alice)) ∧
    Demo.alice ∈ users Demo.db0 ∧ Demo.db0 = Demo.db0 ∧
    [EvQuery Users] = [EvQuery Users].
Proof.
  apply (@guard_sound Demo.jose (Demo.request_with "Bearer eyJ.alice.sig") 10
           Demo.db0 Demo.db0 Demo.alice [EvQuery Users]).
  vm_compute. reflexivity.
Defined.

(** ** Trades: listing, creating and deleting *)

Lemma filter_all {A} (P : A → Prop) `{∀ x, Decision (P x)} (l : list A) :
  (∀ x, x ∈ l → P x) → filter P l = l.
Proof.
  induction l as [|a l IH]; [done|]. intros Hall. rewrite filter_cons.
  rewrite decide_True by (apply Hall; left).
  rewrite IH; [done|]. intros x Hx. apply Hall. by right.
Qed.

Lemma filter_filter_implied {A} (P Q : A → Prop) `{∀ x, Decision (P x)}
  `{∀ x, Decision (Q x)} (l : list A) :
  (∀ x, x ∈ l → P x → Q x) → filter P (filter Q l) = filter P l.
Proof.
  induction l as [|a l IH]; [done|]. intros Himp.
  assert (filter P (filter Q l) = filter P l) as IH'
    by (apply IH; intros x Hx; apply Himp; by right).
  rewrite (filter_cons Q), (filter_cons P).
  destruct (decide (Q a)) as [HQ|HQ].
  - rewrite filter_cons. by rewrite IH'.
  - rewrite IH'. rewrite decide_False; [done|].
    intros HP. apply HQ, Himp; [left|done].
Qed.

Lemma fresh_trade_id db r :
  r ∈ trades db → trade_id r ≠ Some (next_id (trade_ids db)).
Proof.
  intros Hr Hid. apply (next_id_fresh (trade_ids db)).
  apply list_elem_of_omap. eauto.
Qed.

(** X8. [read_trades] returns exactly the stored trades whose owner is
    the caller, in the order of the table, and changes nothing. *)
Theorem read_trades_exact (db : Database) (u : UserDB) :
  ∃ rows,
    get_db (read_trades u) db = (Ok (JsonTrades rows), db, [EvQuery Trades]) ∧
    (∀ t, t ∈ rows ↔ t ∈ trades db ∧ owner_id t = user_id u) ∧
    rows `sublist_of` trades db.
Proof.
  exists (filter (λ t, owner_id t = user_id u) (trades db)).
  rewrite read_trades_run. split_and!; [done| |apply sublist_filter].
  intros t. rewrite list_elem_of_filter. tauto.
Qed.

(** X9. After [create_trade] by a user, that user's listing is the former
    listing followed by the new row, and the listing of every user with
    another id is what it was.  The new row has an id no stored trade
    has, and the rows already stored keep their place. *)
Theorem create_trade_then_list (db : Database) (u : UserDB) (trade : TradeSchema) :
  (get_db (read_trades u) (get_db (create_trade trade u) db).1.2).1.1 =
    Ok (JsonTrades
          (filter (λ t, owner_id t = user_id u) (trades db) ++
           [stored_trade (next_id (trade_ids db)) trade (user_id u)])) ∧
  (∀ v, user_id v ≠ user_id u →
     (get_db (read_trades v) (get_db (create_trade trade u) db).1.2).1.1 =
     (get_db (read_trades v) db).1.1) ∧
  (∀ r, r ∈ trades db → trade_id r ≠ Some (next_id (trade_ids db))) ∧
  trades db `prefix_of` trades (get_db (create_trade trade u) db).1.2.
Proof.
  rewrite create_trade_run. split_and!.
  - rewrite read_trades_run. cbn [fst snd trades]. rewrite filter_app.
    rewrite (filter_cons _ (stored_trade _ _ _)). by rewrite decide_True.
  - intros v Hv. rewrite !read_trades_run. cbn [fst snd trades].
    rewrite filter_app, (filter_cons _ (stored_trade _ _ _)).
    rewrite decide_False by (simpl; congruence). by rewrite app_nil_r.
  - intros r. apply fresh_trade_id.
  - cbn [fst snd trades]. by eexists.
Qed.

(** X10. Creating a trade and then deleting the id it was given, as the
    same user, gives back the tables as they were.  The id given is one
    SQLite can hold, as it is in every table below the largest rowid. *)
Theorem create_then_delete_restores (db : Database) (u : UserDB)
  (trade : TradeSchema) :
  sqlite_integer (next_id (trade_ids db)) = true →
  ∃ db2,
    get_db (delete_trade (next_id (trade_ids db)) u)
           (get_db (create_trade trade u) db).1.2 =
      (Ok (JsonDict [("status", "deleted")]), db2,
       [EvQuery Trades; EvDelete Trades; EvCommit]) ∧
    users db2 = users db ∧ trades db2 = trades db.
Proof.
  intros Hid. rewrite create_trade_run. cbn [fst snd].
  set (row := stored_trade (next_id (trade_ids db)) trade (user_id u)).
  rewrite delete_trade_run, Hid. cbn [fst snd trades users].
  destruct (head_filter_is_Some (owned_match (next_id (trade_ids db)) u)
              (trades db ++ [row]) row) as [t ->].
  { apply elem_of_app. right. by apply list_elem_of_singleton. }
  { by split. }
  eexists. split_and!; [done..|]. simpl.
  rewrite filter_app, (filter_cons _ row). rewrite decide_False by (by intros []).
  rewrite app_nil_r. apply filter_all. intros r. apply fresh_trade_id.
Qed.

Lemma create_then_delete_restores_witness :
  ∃ db2,
    get_db (delete_trade 2 Demo.alice)
           (get_db (create_trade Demo.eurusd Demo.alice) Demo.db0).1.2 =
      (Ok (JsonDict [("status", "deleted")]), db2,
       [EvQuery Trades; EvDelete Trades; EvCommit]) ∧
    users db2 = users Demo.db0 ∧ trades db2 = trades Demo.db0.
Proof.
  apply (create_then_delete_restores Demo.db0 Demo.alice Demo.eurusd).
  reflexivity.
Defined.

(** X11. Deleting is idempotent: a second [delete_trade] of the same id
    by the same user answers as the first did and leaves the database as
    the first one left it; for an id SQLite can hold it finds nothing and
    answers ["status": "deleted"] after its one query. *)
Theorem delete_trade_idempotent (db : Database) (i : Z) (u : UserDB) :
  (get_db (delete_trade i u) (get_db (delete_trade i u) db).1.2).1.1 =
    (get_db (delete_trade i u) db).1.1 ∧
  (get_db (delete_trade i u) (get_db (delete_trade i u) db).1.2).1.2 =
    (get_db (delete_trade i u) db).1.2 ∧
  (sqlite_integer i = true →
     get_db (delete_trade i u) (get_db (delete_trade i u) db).1.2 =
       (Ok (JsonDict [("status", "deleted")]), (get_db (delete_trade i u) db).1.2,
        [EvQuery Trades])).
Proof.
  rewrite (delete_trade_run i u db).
  destruct (sqlite_integer i) eqn:Hi.
  - assert (get_db (delete_trade i u)
              (match head (filter (owned_match i u) (trades db)) with
               | Some _ =>
                   (Ok (JsonDict [("status", "deleted")]),
                    {| users := users db;
                       trades := filter (λ r, trade_id r ≠ Some i) (trades db) |},
                    [EvQuery Trades; EvDelete Trades; EvCommit])
               | None => (Ok (JsonDict [("status", "deleted")]), db, [EvQuery Trades])
               end).1.2 =
            (Ok (JsonDict [("status", "deleted")]),
             (match head (filter (owned_match i u) (trades db)) with
              | Some _ =>
                  (Ok (JsonDict [("status", "deleted")]),
                   {| users := users db;
                      trades := filter (λ r, trade_id r ≠ Some i) (trades db) |},
                   [EvQuery Trades; EvDelete Trades; EvCommit])
              | None => (Ok (JsonDict [("status", "deleted")]), db, [EvQuery Trades])
              end).1.2,
             [EvQuery Trades])) as Hsecond.
    { destruct (head (filter (owned_match i u) (trades db))) as [t|] eqn:Hq;
        cbn [fst snd].
      - rewrite delete_trade_run, Hi. cbn [trades users].
        rewrite (proj2 (head_filter_None (owned_match i u) _)); [done|].
        intros r Hr [Hid _]. apply list_elem_of_filter in Hr as [Hne _]. done.
      - rewrite delete_trade_run, Hi. by rewrite Hq. }
    rewrite Hsecond. split_and!; [|done..].
    by destruct (head _).
  - cbn [fst snd]. rewrite delete_trade_run, Hi. by split_and!.
Qed.

(** X12. In well formed tables [delete_trade] removes nothing but a
    trade of the caller with the given id: every stored row that is
    gone afterwards had that id and that owner, no row is added or
    changed, the users are untouched, and the listing of every user with
    another id is what it was. *)
Theorem delete_trade_only_own (db : Database) (i : Z) (u : UserDB) :
  wf_db db →
  (∀ r, r ∈ trades db → r ∉ trades (get_db (delete_trade i u) db).1.2 →
     trade_id r = Some i ∧ owner_id r = user_id u) ∧
  trades (get_db (delete_trade i u) db).1.2 `sublist_of` trades db ∧
  users (get_db (delete_trade i u) db).1.2 = users db ∧
  (∀ v, user_id v ≠ user_id u →
     (get_db (read_trades v) (get_db (delete_trade i u) db).1.2).1.1 =
     (get_db (read_trades v) db).1.1).
Proof.
  intros Hwf. rewrite delete_trade_run.
  destruct (sqlite_integer i); [|by split_and!].
  destruct (head (filter (owned_match i u) (trades db))) as [t|] eqn:Hq;
    cbn [fst snd trades users].
  - apply head_filter_Some in Hq as [Ht [Hid Hown]].
    assert (∀ r, r ∈ trades db → trade_id r = Some i → r = t) as Huniq.
    { intros r Hr Hrid.
      eapply (NoDup_omap_inj trade_id); [apply (wf_trade_ids _ Hwf)|done..]. }
    split_and!.
    + intros r Hr Hgone.
      destruct (decide (trade_id r = Some i)) as [Hrid|Hrid].
      * by rewrite (Huniq r Hr Hrid).
      * destruct Hgone. by apply list_elem_of_filter.
    + apply sublist_filter.
    + done.
    + intros v Hv. rewrite !read_trades_run. cbn [fst snd trades]. do 2 f_equal.
      apply filter_filter_implied. intros r Hr Hrown Hrid.
      apply Hv. rewrite <- Hrown, (Huniq r Hr Hrid). done.
  - split_and!; done.
Qed.

Lemma delete_trade_only_own_witness :
  (get_db (read_trades Demo.bob)
          (get_db (delete_trade 1 Demo.alice) Demo.db0).1.2).1.1 =
  (get_db (read_trades Demo.bob) Demo.db0).1.1.
Proof.
  refine (proj2 (proj2 (proj2
    (delete_trade_only_own Demo.db0 1 Demo.alice demo_db0_wf))) Demo.bob _).
  discriminate.
Defined.

(** ** The guard in front of a route *)

(** A route function only adds to the statement log it finds. *)
Lemma route_handler_frame r u db tr :
  route_handler r u {| store := db; pending := []; trace := tr |} =
  let '(res, s) := route_handler r u {| store := db; pending := []; trace := [] |} in
  (res, {| store := store s; pending := pending s;
           trace := (tr ++ trace s)%list |}).
Proof.
  destruct r as [trade| |i]; simpl.
  - unfold create_trade, db_add_trade, db_commit, add_pending, mbind, M_bind,
      mret, M_ret. simpl. by rewrite <- !app_assoc.
  - unfold read_trades, query_trades_all, mbind, M_bind, mret, M_ret. simpl. done.
  - unfold delete_trade, query_trades_first, db_delete_trade, db_commit,
      add_pending, mbind, M_bind, mret, M_ret, lift, bind_integer.
    destruct (sqlite_integer i); simpl; [|by rewrite app_nil_r].
    destruct (head (filter _ (trades db))) as [t|]; simpl; [|done].
    by rewrite <- !app_assoc.
Qed.

Lemma serve_protected_run `{Jose} r request now db :
  get_db (serve_protected r request now) db =
  match get_db (get_current_user request now) db with
  | (Ok u, _, tr) =>
      ((get_db (route_handler r u) db).1.1, (get_db (route_handler r u) db).1.2,
       (tr ++ (get_db (route_handler r u) db).2)%list)
  | (Raise e, _, tr) => (Raise e, db, tr)
  end.
Proof.
  unfold get_db at 1 2. unfold serve_protected, mbind, M_bind.
  destruct (get_current_user_session request now db [] [])
    as (res & evs & -> & _ & _).
  simpl. destruct res as [u|e]; [|done].
  rewrite route_handler_frame. unfold get_db.
  by destruct (route_handler r u _) as [res s].
Qed.

(** ** Sequences of requests *)

Lemma keeps_wf_serve `{Passlib} `{Jose} c now : keeps_wf (serve c now).
Proof.
  destruct c as [user salt|user|r request]; simpl.
  - apply keeps_wf_register.
  - apply keeps_wf_login.
  - unfold serve_protected. apply keeps_wf_bind.
    + apply keeps_wf_get_current_user.
    + intros u. apply keeps_wf_route.
Qed.

Lemma get_current_user_Ok `{Jose} request now db db1 u tr :
  get_db (get_current_user request now) db = (Ok u, db1, tr) →
  u ∈ users db ∧ db1 = db ∧ tr = [EvQuery Users].
Proof.
  destruct (headers request !! "Authorization") as [[|c header]|] eqn:Hh.
  - rewrite get_current_user_no_header by (by right). done.
  - rewrite (get_current_user_run request now db c header Hh).
    destruct (token_username (String c header) now) as [v|e]; [|done].
    destruct (head (filter (username_is v) (users db))) as [user|] eqn:Hq; [|done].
    intros [= -> <- <-]. by apply head_filter_Some in Hq as [Hu _].
  - rewrite get_current_user_no_header by (by left). done.
Qed.

(** What one request can do to the tables: the users are kept, with at
    most new ones after them, and a trade row found afterwards was there
    before or is the row just created for a stored user. *)
Lemma serve_step `{Passlib} `{Jose} c now db :
  users db `prefix_of` users (get_db (serve c now) db).1.2 ∧
  (∀ t, t ∈ trades (get_db (serve c now) db).1.2 →
     t ∈ trades db ∨
     ∃ trade u, u ∈ users db ∧
       t = stored_trade (next_id (trade_ids db)) trade (user_id u)).
Proof.
  destruct c as [user salt|user|r request]; simpl.
  - rewrite register_run. destruct (head _); simpl.
    + split; [done|]. intros t Ht. by left.
    + destruct (get_password_hash _ _) as [hashed_pw|e]; simpl.
      * split; [by eexists|]. intros t Ht. by left.
      * split; [done|]. intros t Ht. by left.
  - rewrite login_run. destruct (head _) as [v|]; simpl.
    + destruct (verify_password _ _) as [[|]|e]; simpl;
        (split; [done|]; intros t Ht; by left).
    + split; [done|]. intros t Ht. by left.
  - rewrite serve_protected_run.
    destruct (get_db (get_current_user request now) db) as [[[u|e] db1] tr] eqn:Hg;
      cbn [fst snd].
    + apply get_current_user_Ok in Hg as (Hu & _ & _).
      destruct r as [trade| |i]; cbn [route_handler].
      * rewrite create_trade_run. cbn [fst snd users trades]. split; [done|].
        intros t Ht. apply elem_of_app in Ht as [Ht|Ht]; [by left|].
        apply list_elem_of_singleton in Ht. right. eauto.
      * rewrite read_trades_run. cbn [fst snd]. split; [done|].
        intros t Ht. by left.
      * rewrite delete_trade_run.
        destruct (sqlite_integer i);
          [|split; [done|]; intros t Ht; by left].
        destruct (head _) as [t0|]; cbn [fst snd users trades].
        -- split; [done|]. intros t Ht. left.
           apply list_elem_of_filter in Ht. tauto.
        -- split; [done|]. intros t Ht. by left.
    + split; [done|]. intros t Ht. by left.
Qed.

Lemma prefix_elem_of {A} (l k : list A) x : l `prefix_of` k → x ∈ l → x ∈ k.
Proof. intros [m ->] Hx. apply elem_of_app. by left. Qed.

Lemma run_calls_invariant `{Passlib} `{Jose} calls db :
  wf_db db →
  (∀ t, t ∈ trades db → ∃ u, u ∈ users db ∧ owner_id t = user_id u) →
  wf_db (run_calls calls db) ∧
  (∀ t, t ∈ trades (run_calls calls db) →
     ∃ u, u ∈ users (run_calls calls db) ∧ owner_id t = user_id u).
Proof.
  revert db. induction calls as [|[c now] calls IH]; intros db Hwf Hown; [done|].
  simpl. destruct (serve_step c now db) as [Hpre Hrows]. apply IH.
  - apply get_db_wf; [apply keeps_wf_serve|done].
  - intros t Ht. destruct (Hrows t Ht) as [Hold|(trade & u & Hu & ->)].
    + destruct (Hown t Hold) as (u & Hu & Ho). exists u.
      split; [by eapply prefix_elem_of|done].
    + exists u. split; [by eapply prefix_elem_of|done].
Qed.

(** X14. Whatever requests are served, starting from empty tables, the
    database stays consistent: stored rows have their primary keys, ids
    and usernames are not repeated, and every trade is owned by exactly
    one stored user, although nothing in the schema enforces it. *)
Theorem reachable_tables_consistent `{Passlib} `{Jose} (calls : list (api_call * Z)) :
  wf_db (run_calls calls empty_db) ∧
  (∀ t, t ∈ trades (run_calls calls empty_db) →
     ∃ u, u ∈ users (run_calls calls empty_db) ∧ owner_id t = user_id u ∧
          ∀ v, v ∈ users (run_calls calls empty_db) →
               owner_id t = user_id v → v = u).
Proof.
  destruct (run_calls_invariant calls empty_db) as [Hwf Hown].
  - split; simpl; try apply NoDup_nil_2;
      intros x Hx; by apply not_elem_of_nil in Hx.
  - intros t Ht. by apply not_elem_of_nil in Ht.
  - split; [done|]. intros t Ht. destruct (Hown t Ht) as (u & Hu & Ho).
    exists u. split_and!; [done..|]. intros v Hv Hov.
    destruct (wf_user_keys _ Hwf u Hu) as [i Hi].
    apply (NoDup_omap_inj user_id _ v u i (wf_user_ids _ Hwf) Hv Hu);
      [congruence|done].
Qed.

(** X15. No request removes or changes a stored user: after any sequence
    of requests the users table starts with the rows it had, ids,
    usernames and password hashes as they were. *)
Theorem users_never_removed `{Passlib} `{Jose} (calls : list (api_call * Z))
  (db : Database) :
  users db `prefix_of` users (run_calls calls db).
Proof.
  revert db. induction calls as [|[c now] calls IH]; intros db; simpl; [done|].
  etrans; [apply (serve_step c now db)|apply IH].
Qed.

(** X16. No request changes a stored trade: a row found after a request
    under an id that was in use before it is a row that was stored
    before, owner and all other fields included. *)
Theorem trade_rows_never_updated `{Passlib} `{Jose} (c : api_call) (now : Z)
  (db : Database) (t : TradeDB) (i : Z) :
  t ∈ trades (get_db (serve c now) db).1.2 →
  trade_id t = Some i → i ∈ trade_ids db →
  t ∈ trades db.
Proof.
  intros Ht Hid Hi. destruct (serve_step c now db) as [_ Hrows].
  destruct (Hrows t Ht) as [Hold|(trade & u & _ & ->)]; [done|].
  simpl in Hid. injection Hid as <-. by destruct (next_id_fresh (trade_ids db)).
Qed.

Lemma trade_rows_never_updated_witness : Demo.trade1 ∈ trades Demo.db0.
Proof.
  apply (@trade_rows_never_updated Demo.passlib Demo.jose
           (Protected (PostTrade Demo.eurusd)
              (Demo.request_with "Bearer eyJ.alice.sig")) 10 Demo.db0
           Demo.trade1 1).
  - vm_compute. repeat constructor.
  - reflexivity.
  - vm_compute. repeat constructor.
Defined.

(** X17. Logging in, passing the guard and listing trades never change
    the database, whatever their outcome. *)
Theorem read_only_requests `{Passlib} `{Jose} (db : Database) (user : UserLogin)
  (request : Request) (now : Z) :
  (get_db (login user now) db).1.2 = db ∧
  (get_db (get_current_user request now) db).1.2 = db ∧
  (get_db (serve_protected GetTrades request now) db).1.2 = db.
Proof.
  split_and!.
  - rewrite login_run. destruct (head _) as [v|]; [|done].
    by destruct (verify_password _ _) as [[|]|e].
  - unfold get_db.
    destruct (get_current_user_session request now db [] [])
      as (res & evs & -> & _ & _). done.
  - rewrite serve_protected_run.
    destruct (get_db (get_current_user request now) db) as [[[u|e] db1] tr];
      [|done].
    cbn [route_handler]. by rewrite read_trades_run.
Qed.

(** ** From registration to an authenticated request *)

Lemma bearer_request_header token :
  headers (bearer_request token) !! "Authorization"
  = Some (String "B" ("earer " +:+ token)).
Proof. unfold bearer_request. simpl. apply lookup_singleton_eq. Qed.

(** X18. Registration, login and the guard fit together: after a
    registration with a free username, a login with the same credentials
    returns a token, and a request carrying that token as
    "Bearer <token>" at any time up to the expiry is resolved by the guard
    to the row the registration stored.  The libraries are taken to
    make a hash of this password and verify it, and to verify the claims
    they signed, and the token to have no space. *)
Theorem register_login_authenticate `{Passlib} `{Jose} (db : Database)
  (user : UserLogin) (salt hashed_pw : string) (now t : Z) :
  wf_db db →
  (∀ v, v ∈ users db → username v ≠ login_username user) →
  get_password_hash salt (login_password user) = Ok hashed_pw →
  verify_password (login_password user) hashed_pw = Ok true →
  verifies_own_signature (issued_claims (login_username user) now) →
  has_char space
    (create_access_token {["sub" := PStr (login_username user)]} now) = false →
  t ≤ now + 60 * 60 →
  get_db (login user now) (get_db (register user salt) db).1.2 =
    (Ok (token_response (login_username user) now),
     (get_db (register user salt) db).1.2, [EvQuery Users]) ∧
  get_db (get_current_user
            (bearer_request
               (create_access_token {["sub" := PStr (login_username user)]} now))
            t)
         (get_db (register user salt) db).1.2 =
    (Ok (stored_user (next_id (user_ids db)) user hashed_pw),
     (get_db (register user salt) db).1.2, [EvQuery Users]).
Proof.
  intros Hwf Hfresh Hhash Hver Hsig Hsp Ht.
  pose proof (get_db_wf (register user salt) db (keeps_wf_register user salt) Hwf)
    as Hwf1.
  assert (stored_user (next_id (user_ids db)) user hashed_pw
            ∈ users (get_db (register user salt) db).1.2) as Hnew.
  { rewrite register_run, (proj2 (head_filter_None _ _) Hfresh), Hhash.
    cbn [fst snd users]. apply elem_of_app. right.
    by apply list_elem_of_singleton. }
  set (db1 := (get_db (register user salt) db).1.2) in *.
  set (new := stored_user (next_id (user_ids db)) user hashed_pw) in *.
  split.
  - rewrite login_run.
    rewrite (query_by_username db1 new (login_username user) Hwf1 Hnew eq_refl).
    change (hashed_password new) with hashed_pw.
    by rewrite Hver.
  - rewrite (get_current_user_lookup _ t db1 _ _ (PStr (username new))
               (bearer_request_header _) (issued_token_at_guard _ now t Hsig Hsp Ht)).
    by rewrite (query_by_username_value db1 new Hwf1 Hnew).
Qed.

Lemma register_login_authenticate_witness :
  get_db (@get_current_user Demo.jose (bearer_request "eyJ.alice.sig") 10)
         {| users := [Demo.alice]; trades := [] |} =
    (Ok Demo.alice, {| users := [Demo.alice]; trades := [] |}, [EvQuery Users]).
Proof.
  refine (proj2 (@register_login_authenticate Demo.passlib Demo.jose empty_db
    {| login_username := "alice"; login_password := "pw1" |} "salt"
    "$2b$salt$pw1" 0 10 _ _ _ _ _ _ _)).
  - split; simpl; try apply NoDup_nil_2;
      intros x Hx; by apply not_elem_of_nil in Hx.
  - intros v Hv. by apply not_elem_of_nil in Hv.
  - reflexivity.
  - reflexivity.
  - vm_compute. reflexivity.
  - reflexivity.
  - lia.
Defined.

(** X19. After its expiry the token [login] issued is refused at the
    guard like any other bad token, with the 401 "Token invalid": the
    caller cannot tell an expired token from a forged one.  No query is
    issued. *)
Theorem expired_token_refused `{Jose} (u : string) (issued_at t : Z) (db : Database) :
  verifies_own_signature (issued_claims u issued_at) →
  has_char space (create_access_token {["sub" := PStr u]} issued_at) = false →
  issued_at + 60 * 60 < t →
  get_db (get_current_user
            (bearer_request (create_access_token {["sub" := PStr u]} issued_at)) t)
         db =
    (Raise (HTTPException 401 (Some "Token invalid")), db, []).
Proof.
  intros Hsig Hsp Hgt.
  exact (get_current_user_token_error _ t db _ _ _ (bearer_request_header _)
           (expired_token_at_guard u issued_at t Hsig Hsp Hgt)).
Qed.

Lemma expired_token_refused_witness :
  get_db (@get_current_user Demo.jose (bearer_request "eyJ.alice.sig") 3601)
         Demo.db0 =
    (Raise (HTTPException 401 (Some "Token invalid")), Demo.db0, []).
Proof.
  refine (@expired_token_refused Demo.jose "alice" 0 3601 Demo.db0 _ _ _).
  - vm_compute. reflexivity.
  - reflexivity.
  - lia.
Defined.

(** X20. After a successful registration, that is one with a free
    username whose password was hashed, the username is taken: a second
    registration with it, whatever the password, fails with the 400
    before any hashing, and leaves the row of the first registration as
    the only one with that username. *)
Theorem register_twice `{Passlib} (db : Database) (user : UserLogin)
  (salt hashed_pw password' salt' : string) :
  (∀ v, v ∈ users db → username v ≠ login_username user) →
  get_password_hash salt (login_password user) = Ok hashed_pw →
  get_db (register {| login_username := login_username user;
                      login_password := password' |} salt')
         (get_db (register user salt) db).1.2 =
    (Raise (HTTPException 400 (Some "User already exists")),
     (get_db (register user salt) db).1.2, [EvQuery Users]) ∧
  filter (λ v, username v = login_username user)
         (users (get_db (register user salt) db).1.2) =
    [stored_user (next_id (user_ids db)) user hashed_pw].
Proof.
  intros Hfresh Hhash. rewrite (register_run user salt db).
  rewrite (proj2 (head_filter_None _ _) Hfresh), Hhash. cbn [fst snd].
  assert (filter (λ v, username v = login_username user)
            (users db ++ [stored_user (next_id (user_ids db)) user hashed_pw])%list =
          [stored_user (next_id (user_ids db)) user hashed_pw]) as Hq.
  { rewrite filter_app, (filter_cons _ (stored_user _ _ _)).
    rewrite decide_True by done.
    destruct (filter (λ v, username v = login_username user) (users db))
      as [|v l] eqn:Hf; [done|].
    assert (v ∈ filter (λ v, username v = login_username user) (users db)) as Hv
      by (rewrite Hf; left).
    apply list_elem_of_filter in Hv as [Hname Hv]. by destruct (Hfresh v Hv). }
  split; [|exact Hq].
  rewrite register_run. cbn [users login_username]. by rewrite Hq.
Qed.

Lemma register_twice_witness :
  get_db (@register Demo.passlib
            {| login_username := "carol"; login_password := "other" |} "s4")
         (get_db (@register Demo.passlib
                    {| login_username := "carol"; login_password := "pw3" |} "s3")
                 Demo.db0).1.2 =
    (Raise (HTTPException 400 (Some "User already exists")),
     (get_db (@register Demo.passlib
                {| login_username := "carol"; login_password := "pw3" |} "s3")
             Demo.db0).1.2, [EvQuery Users]).
Proof.
  refine (proj1 (@register_twice Demo.passlib Demo.db0
    {| login_username := "carol"; login_password := "pw3" |} "s3" "$2b$s3$pw3"
    "other" "s4" _ _)).
  - intros v Hv.
    apply (Forall_forall (λ v, username v ≠ "carol") (users Demo.db0)); [|done].
    repeat constructor; discriminate.
  - reflexivity.
Defined.

Lemma delete_trade_other_listing db i u v :
  wf_db db → user_id v ≠ user_id u →
  filter (λ t, owner_id t = user_id v)
         (trades (get_db (delete_trade i u) db).1.2) =
  filter (λ t, owner_id t = user_id v) (trades db).
Proof.
  intros Hwf Hv. rewrite delete_trade_run.
  destruct (sqlite_integer i); [|done].
  destruct (head (filter (owned_match i u) (trades db))) as [t|] eqn:Hq;
    cbn [fst snd trades]; [|done].
  apply head_filter_Some in Hq as [Ht [Hid Hown]].
  apply filter_filter_implied. intros r Hr Hrown Hrid. apply Hv.
  rewrite <- Hrown.
  by rewrite (NoDup_omap_inj trade_id (trades db) r t i (wf_trade_ids _ Hwf)
                Hr Ht Hrid Hid).
Qed.

(** X21. A user's listing changes only through requests authenticated as
    that user: in well formed tables, a registration, a login, a request
    the guard refuses, and any protected request the guard resolves to a
    user with another id all leave the listing of [v] as it was. *)
Theorem listing_changed_only_by_owner `{Passlib} `{Jose} (c : api_call) (now : Z)
  (db : Database) (v : UserDB) :
  wf_db db →
  (∀ r request u db1 tr,
     c = Protected r request →
     get_db (get_current_user request now) db = (Ok u, db1, tr) →
     user_id u ≠ user_id v) →
  (get_db (read_trades v) (get_db (serve c now) db).1.2).1.1 =
  (get_db (read_trades v) db).1.1.
Proof.
  intros Hwf Hother. rewrite !read_trades_run. cbn [fst snd]. do 2 f_equal.
  destruct c as [user salt|user|r request]; cbn [serve].
  - rewrite register_run. destruct (head _); [done|].
    by destruct (get_password_hash _ _).
  - rewrite login_run. destruct (head _) as [w|]; [|done].
    by destruct (verify_password _ _) as [[|]|e].
  - rewrite serve_protected_run.
    destruct (get_db (get_current_user request now) db) as [[[u|e] db1] tr] eqn:Hg;
      cbn [fst snd]; [|done].
    pose proof (Hother r request u db1 tr eq_refl Hg) as Hne.
    destruct r as [trade| |i]; cbn [route_handler].
    + rewrite create_trade_run. cbn [fst snd trades].
      rewrite filter_app, (filter_cons _ (stored_trade _ _ _)).
      rewrite decide_False by (simpl; congruence). by rewrite app_nil_r.
    + by rewrite read_trades_run.
    + apply delete_trade_other_listing; [done|congruence].
Qed.

Lemma listing_changed_only_by_owner_witness :
  (get_db (read_trades Demo.bob)
     (get_db (@serve Demo.passlib Demo.jose
                (Protected (DeleteTrade 1)
                   (Demo.request_with "Bearer eyJ.alice.sig")) 10)
             Demo.db0).1.2).1.1 =
  (get_db (read_trades Demo.bob) Demo.db0).1.1.
Proof.
  refine (@listing_changed_only_by_owner Demo.passlib Demo.jose
            (Protected (DeleteTrade 1) (Demo.request_with "Bearer eyJ.alice.sig"))
            10 Demo.db0 Demo.bob demo_db0_wf _).
  intros r request u db1 tr Hc. injection Hc as <- <-.
  assert (get_db (@get_current_user Demo.jose
                    (Demo.request_with "Bearer eyJ.alice.sig") 10) Demo.db0 =
          (Ok Demo.alice, Demo.db0, [EvQuery Users])) as -> by (vm_compute; reflexivity).
  intros Hu. injection Hu as <- _ _. discriminate.
Defined.
